(** * bookstore_manager: a shallow embedding of [bookstore_manager.py]

    The program is a console front end over an SQLite file with three
    tables ([member], [book], [sale]).  The embedding has four layers:

    - text: a [str] as its UTF-8 bytes, the date pattern and [int()];
    - store: the tables, a connection with its open transaction, and a
      schedule saying which store calls raise [sqlite3.Error];
    - console: the lines still to be read and the messages printed;
    - operations: [add_sale], [print_sale_report], [update_sale],
      [delete_sale] and the menu loop, written in a small
      state-and-exception monad over the three layers above.

    The operations run on a file that has the schema, [seed_db] being
    the tables [initialize_db] creates; start-up itself, on a file that
    may lack them, has a module of its own at the end of the
    definitions.  After the definitions come the rules of a
    weakest-precondition calculus for the monad, the effect of each
    operation on the connection, the invariants of the reachable
    connections, the claims C1 to C10 and further properties. *)

From Stdlib Require Import ZArith Ascii String List Lia.
From stdpp Require Import base option list strings gmap fin_maps sorting.

Local Open Scope string_scope.
Local Open Scope Z_scope.

(** ** Text: characters, the date pattern, [int()] *)

Module Text.

(** A [str] is a sequence of Unicode code points.  The model keeps a
    [str] as the bytes of its UTF-8 form: the ASCII literals of the
    program read as they are written, and two [str] are equal exactly
    when their bytes are.  [code_points] gives the characters back;
    bytes that are the UTF-8 form of no [str] have none. *)
Definition byte (c : ascii) : Z := Z.of_nat (nat_of_ascii c).

Definition continuation (b : Z) : bool := (128 <=? b) && (b <=? 191).

Fixpoint code_points (s : string) : option (list Z) :=
  match s with
  | EmptyString => Some []
  | String c1 s1 =>
      let b1 := byte c1 in
      if b1 <? 128 then cons b1 <$> code_points s1
      else
        match s1 with
        | EmptyString => None
        | String c2 s2 =>
            let b2 := byte c2 in
            if b1 <? 224 then
              let ch := (b1 - 192) * 64 + (b2 - 128) in
              if (194 <=? b1) && continuation b2
              then cons ch <$> code_points s2 else None
            else
              match s2 with
              | EmptyString => None
              | String c3 s3 =>
                  let b3 := byte c3 in
                  if b1 <? 240 then
                    let ch := (b1 - 224) * 4096 + (b2 - 128) * 64 + (b3 - 128) in
                    if continuation b2 && continuation b3 && (2048 <=? ch)
                       && negb ((55296 <=? ch) && (ch <=? 57343))
                    then cons ch <$> code_points s3 else None
                  else
                    match s3 with
                    | EmptyString => None
                    | String c4 s4 =>
                        let b4 := byte c4 in
                        let ch := (b1 - 240) * 262144 + (b2 - 128) * 4096
                                  + (b3 - 128) * 64 + (b4 - 128) in
                        if (b1 <=? 244) && continuation b2 && continuation b3
                           && continuation b4 && (65536 <=? ch) && (ch <=? 1114111)
                        then cons ch <$> code_points s4 else None
                    end
              end
        end
  end.

(** The decimal digits of Unicode, category Nd: what [\d] matches in a
    [str] pattern and what [int()] reads as a digit.  Every script has
    its ten digits in a row, from its zero; these are the zeros of
    Unicode 14.0.0, the [unicodedata.unidata_version] of CPython 3.11:
    ASCII, Arabic-Indic, and so on to the full-width and the segmented
    digits. *)
Definition decimal_zeros : list Z :=
  [48; 1632; 1776; 1984; 2406; 2534; 2662; 2790; 2918; 3046; 3174; 3302; 3430;
   3558; 3664; 3792; 3872; 4160; 4240; 6112; 6160; 6470; 6608; 6784; 6800; 6992;
   7088; 7232; 7248; 42528; 43216; 43264; 43472; 43504; 43600; 44016; 65296;
   66720; 68912; 69734; 69872; 69942; 70096; 70384; 70736; 70864; 71248; 71360;
   71472; 71904; 72016; 72784; 73040; 73120; 92768; 92864; 93008; 120782;
   120792; 120802; 120812; 120822; 123200; 123632; 125264; 130032].

(** [unicodedata.decimal(ch)], and [None] for what is no decimal digit. *)
Definition decimal (ch : Z) : option Z :=
  (λ zero, ch - zero)
    <$> List.find (λ zero, (zero <=? ch) && (ch <? zero + 10)) decimal_zeros.

Definition is_decimal (ch : Z) : bool :=
  match decimal ch with Some _ => true | None => false end.

(** The fragment of [re] that [DATE_PATTERN] is written in: a pattern is
    a sequence of items, each an anchor or a one-character class.
    [\d{4}] is four [ReDigit] in a row. *)
Inductive re_item : Type :=
  | ReBol                 (* ^ *)
  | ReEol                 (* $ *)
  | ReDigit               (* \d *)
  | ReLit (ch : Z).       (* a literal character *)

Definition LF : ascii := ascii_of_nat 10.

(** The one-character string that is a newline. *)
Definition NL : string := String LF EmptyString.

(** [$] without [re.MULTILINE]: at the end of the string, or just
    before a newline that is the last character. *)
Definition at_eol (l : list Z) : bool :=
  match l with
  | [] => true
  | [ch] => ch =? byte LF
  | _ => false
  end.

(** [re.match]: the pattern has to match at the start of the string; the
    string may go on after the match.  [bol] says whether the position
    is the start of the string. *)
Fixpoint re_match_at (bol : bool) (p : list re_item) (l : list Z) : bool :=
  match p with
  | [] => true
  | ReBol :: p' => bol && re_match_at bol p' l
  | ReEol :: p' => at_eol l && re_match_at bol p' l
  | ReDigit :: p' =>
      match l with
      | ch :: l' => is_decimal ch && re_match_at false p' l'
      | [] => false
      end
  | ReLit a :: p' =>
      match l with
      | ch :: l' => (ch =? a) && re_match_at false p' l'
      | [] => false
      end
  end.

Definition re_match (p : list re_item) (l : list Z) : bool := re_match_at true p l.

(** [DATE_PATTERN = r"^\d{4}-\d{2}-\d{2}$"] *)
Definition DATE_PATTERN : list re_item :=
  [ReBol] ++ replicate 4 ReDigit ++ [ReLit (byte "-")] ++ replicate 2 ReDigit
          ++ [ReLit (byte "-")] ++ replicate 2 ReDigit ++ [ReEol].

(** [validate_date(date)]: [bool(re.match(DATE_PATTERN, date))] *)
Definition validate_date (date : string) : bool :=
  match code_points date with
  | Some l => re_match DATE_PATTERN l
  | None => false
  end.

(** [int(s)] for a [str], base ten.  [int()] first brings the text to
    ASCII: a character below 127 stays, Unicode white space above
    becomes a blank, a decimal digit becomes the ASCII digit of its
    value, and anything else ends the text with a [?], which no number
    has.  (An ASCII [str] is taken as it is, which comes to the same:
    127 is no digit and no white space.) *)
Definition unicode_spaces : list Z :=
  [133; 160; 5760; 8192; 8193; 8194; 8195; 8196; 8197; 8198; 8199; 8200; 8201;
   8202; 8232; 8233; 8239; 8287; 12288].

Definition is_unicode_space (ch : Z) : bool := existsb (Z.eqb ch) unicode_spaces.

Fixpoint to_ascii (l : list Z) : list Z :=
  match l with
  | [] => []
  | ch :: l' =>
      if ch <? 127 then ch :: to_ascii l'
      else if is_unicode_space ch then byte " " :: to_ascii l'
      else
        match decimal ch with
        | Some v => (byte "0" + v) :: to_ascii l'
        | None => [byte "?"]
        end
  end.

(** Then the ASCII text is read: the white space of C (TAB to CR and the
    blank; not FS to US) is dropped at both ends, one sign is allowed,
    single underscores may separate digits, and more than
    [max_str_digits] digits are refused (4300, the limit of
    [sys.get_int_max_str_digits()] unless it is set).  [None] stands for
    [ValueError]. *)
Definition is_space (ch : Z) : bool := ((9 <=? ch) && (ch <=? 13)) || (ch =? 32).

Definition is_ascii_digit (ch : Z) : bool := (48 <=? ch) && (ch <=? 57).

Definition max_str_digits : nat := 4300.

Inductive int_state : Type := AtStart | AfterDigit | AfterUnderscore.

Fixpoint parse_digits (st : int_state) (acc : Z) (l : list Z) : option Z :=
  match l with
  | [] => match st with AfterDigit => Some acc | _ => None end
  | ch :: l' =>
      if is_ascii_digit ch then parse_digits AfterDigit (10 * acc + (ch - 48)) l'
      else if ch =? byte "_" then
        match st with
        | AfterDigit => parse_digits AfterUnderscore acc l'
        | _ => None
        end
      else None
  end.

Fixpoint count_digits (l : list Z) : nat :=
  match l with
  | [] => O
  | ch :: l' => if is_ascii_digit ch then S (count_digits l') else count_digits l'
  end.

Definition parse_number (l : list Z) : option Z :=
  if (max_str_digits <? count_digits l)%nat then None else parse_digits AtStart 0 l.

Fixpoint lstrip (l : list Z) : list Z :=
  match l with
  | ch :: l' => if is_space ch then lstrip l' else l
  | [] => []
  end.

Definition strip (l : list Z) : list Z := rev (lstrip (rev (lstrip l))).

Definition py_int (s : string) : option Z :=
  l ← code_points s;
  match strip (to_ascii l) with
  | ch :: t =>
      if ch =? byte "-" then Z.opp <$> parse_number t
      else if ch =? byte "+" then parse_number t
      else parse_number (ch :: t)
  | [] => None
  end.

(** The format the docstring of [validate_date] names, [YYYY-MM-DD]:
    ten characters, dashes at positions 4 and 7, one of the digits 0 to
    9 elsewhere. *)
Definition digit_0_9 (c : ascii) : bool :=
  let n := nat_of_ascii c in (48 <=? n)%nat && (n <=? 57)%nat.

Definition iso_date_shape (s : string) : Prop :=
  ∃ y1 y2 y3 y4 m1 m2 d1 d2 : ascii,
    Forall (λ c, digit_0_9 c = true) [y1; y2; y3; y4; m1; m2; d1; d2] ∧
    s = String y1 (String y2 (String y3 (String y4 (String "-"
         (String m1 (String m2 (String "-" (String d1 (String d2 EmptyString))))))))).

(** The texts [DATE_PATTERN] matches up to its [$]: ten characters,
    [-] at positions 4 and 7, a decimal digit of any script elsewhere. *)
Definition date_points (l : list Z) : Prop :=
  ∃ y1 y2 y3 y4 m1 m2 d1 d2 : Z,
    Forall (λ ch, is_decimal ch = true) [y1; y2; y3; y4; m1; m2; d1; d2] ∧
    l = [y1; y2; y3; y4; byte "-"; m1; m2; byte "-"; d1; d2].

End Text.

Export Text.

(** ** Store: tables, connection, fallible store calls *)

Module Store.

(** One record per table row; the key column is the key of the map.
    Integer columns hold [Z]; what SQLite stores is a 64-bit signed
    integer, and the range is enforced where Python hands an integer to
    the store ([bind_params] below). *)
Record member_row : Type := MemberRow {
  mname : string;
  mphone : string;
  memail : option string }.

Record book_row : Type := BookRow {
  btitle : string;
  bprice : Z;
  bstock : Z }.

Record sale_row : Type := SaleRow {
  sdate : string;
  mid : string;
  bid : string;
  sqty : Z;
  sdiscount : Z;
  stotal : Z }.

(** [sale_seq] is the [sqlite_sequence] entry that [AUTOINCREMENT]
    keeps for [sale]: the largest [sid] ever handed out. *)
Record db : Type := Db {
  member : gmap string member_row;
  book : gmap string book_row;
  sale : gmap Z sale_row;
  sale_seq : Z }.

(** The rows that the script of [initialize_db] inserts. *)
Definition seed_db : db :=
  Db (list_to_map
        [("M001", MemberRow "Alice" "0912-345678" (Some "alice@example.com"));
         ("M002", MemberRow "Bob" "0923-456789" (Some "bob@example.com"));
         ("M003", MemberRow "Cathy" "0934-567890" (Some "cathy@example.com"))])
     (list_to_map
        [("B001", BookRow "Python Programming" 600 50);
         ("B002", BookRow "Data Science Basics" 800 30);
         ("B003", BookRow "Machine Learning Guide" 1200 20)])
     (list_to_map
        [(1, SaleRow "2024-01-15" "M001" "B001" 2 100 1100);
         (2, SaleRow "2024-01-16" "M002" "B002" 1 50 750);
         (3, SaleRow "2024-01-17" "M001" "B003" 3 200 3400);
         (4, SaleRow "2024-01-18" "M003" "B001" 1 0 600)])
     4.

(** A connection: what the file holds ([committed]) and what the open
    transaction sees ([working]). *)
Record conn : Type := Conn {
  committed : db;
  working : db }.

Definition connect (d : db) : conn := Conn d d.

(** [sid INTEGER PRIMARY KEY AUTOINCREMENT]: one more than the largest
    [sid] that is, or ever was, in the table.  (Running out of row ids
    is a store error like any other, see [w_faults].) *)
Definition max_sid (t : gmap Z sale_row) : Z :=
  map_fold (λ k _ acc, Z.max k acc) 0 t.

Definition next_sid (d : db) : Z := 1 + Z.max (sale_seq d) (max_sid (sale d)).

(** [INSERT INTO sale (sdate, mid, bid, sqty, sdiscount, stotal) VALUES (?, ?, ?, ?, ?, ?)] *)
Definition insert_sale (r : sale_row) (d : db) : db :=
  let sid := next_sid d in
  Db (member d) (book d) (<[sid := r]> (sale d)) sid.

(** [UPDATE book SET bstock = bstock - ? WHERE bid = ?].  [add_sale]
    runs it with [0 < q <= bstock] only, where the difference of two
    64-bit values is one. *)
Definition decrement_stock (b : string) (q : Z) (d : db) : db :=
  Db (member d)
     (alter (λ r, BookRow (btitle r) (bprice r) (bstock r - q)) b (book d))
     (sale d) (sale_seq d).

(** [UPDATE sale SET sdiscount = ?, stotal = ? WHERE sid = ?] *)
Definition set_discount (sid disc total : Z) (d : db) : db :=
  Db (member d) (book d)
     (alter (λ r, SaleRow (sdate r) (mid r) (bid r) (sqty r) disc total) sid (sale d))
     (sale_seq d).

(** [DELETE FROM sale WHERE sid = ?] *)
Definition delete_row (sid : Z) (d : db) : db :=
  Db (member d) (book d) (delete sid (sale d)) (sale_seq d).

(** [FROM sale s ... ORDER BY s.sid] *)
Definition sid_le (x y : Z * sale_row) : Prop := (x.1 ≤ y.1)%Z.

#[global] Instance sid_le_dec : RelDecision sid_le.
Proof. intros x y. unfold sid_le. apply _. Defined.

Definition sales_by_sid (d : db) : list (Z * sale_row) :=
  merge_sort sid_le (map_to_list (sale d)).

(** [SELECT s.sid, s.sdate, m.mname FROM sale s JOIN member m ON s.mid = m.mid ORDER BY s.sid] *)
Record listing : Type := Listing {
  l_sid : Z;
  l_sdate : string;
  l_mname : string }.

Definition select_sales_list (d : db) : list listing :=
  omap (λ x : Z * sale_row,
          (λ m, Listing x.1 (sdate x.2) (mname m)) <$> member d !! mid x.2)
       (sales_by_sid d).

(** [SELECT s.*, b.bprice FROM sale s JOIN book b ON s.bid = b.bid WHERE s.sid = ?],
    then [fetchone()]: the row and the price, or [None]. *)
Definition select_sale_with_price (sid : Z) (d : db) : option (sale_row * Z) :=
  s ← sale d !! sid;
  b ← book d !! bid s;
  Some (s, bprice b).

(** The join of [print_sale_report]. *)
Record report_row : Type := ReportRow {
  r_sid : Z;
  r_sdate : string;
  r_mname : string;
  r_btitle : string;
  r_bprice : Z;
  r_sqty : Z;
  r_sdiscount : Z;
  r_stotal : Z }.

Definition select_report (d : db) : list report_row :=
  omap (λ x : Z * sale_row,
          m ← member d !! mid x.2;
          b ← book d !! bid x.2;
          Some (ReportRow x.1 (sdate x.2) (mname m) (btitle b) (bprice b)
                          (sqty x.2) (sdiscount x.2) (stotal x.2)))
       (sales_by_sid d).

(** The integers SQLite can hold. *)
Definition int64 (z : Z) : bool := (- 2 ^ 63 <=? z) && (z <? 2 ^ 63).

#[global] Instance member_row_eq_dec : EqDecision member_row.
Proof. solve_decision. Defined.
#[global] Instance book_row_eq_dec : EqDecision book_row.
Proof. solve_decision. Defined.
#[global] Instance sale_row_eq_dec : EqDecision sale_row.
Proof. solve_decision. Defined.
#[global] Instance db_eq_dec : EqDecision db.
Proof. solve_decision. Defined.
#[global] Instance conn_eq_dec : EqDecision conn.
Proof. solve_decision. Defined.

End Store.

Export Store.

(** ** Console and control: messages, exceptions, the monad *)

Module Run.

(** One constructor per [print] of the program (the lines written for
    one sale of the report, and the lines of the menu, are one message
    each).  The prompt text of [input] is not recorded. *)
Inductive msg : Type :=
  | MsgBadDate
  | MsgQtyNotPositive
  | MsgNotInteger
  | MsgDiscountNegative
  | MsgInvalidIds
  | MsgStockShort (current_stock : Z)
  | MsgSaleAdded (total : Z)
  | MsgError
  | MsgReportHeader
  | MsgReportSale (i : nat) (r : report_row)
  | MsgListHeader
  | MsgListItem (i : nat) (l : listing)
  | MsgListFooter
  | MsgNoSales
  | MsgBadChoice
  | MsgDiscountNotInteger
  | MsgSaleUpdated (sid total : Z)
  | MsgSaleDeleted (sid : Z)
  | MsgMenu
  | MsgBadOption.

(** The exceptions that can leave a statement of the program.
    [ValueError] of [int()] is always handled where it is raised, and is
    the [None] of [py_int]. *)
Inductive exn : Type :=
  | SqliteError      (* sqlite3.Error: raised by the store *)
  | OverflowError    (* a Python integer that does not fit SQLite's INTEGER *)
  | TypeError        (* subscript of None *)
  | IndexError       (* list index out of range *)
  | EOFError.        (* input() at the end of standard input *)

Inductive outcome (A : Type) : Type :=
  | Ret (a : A)
  | Raise (e : exn).
Arguments Ret {A} a.
Arguments Raise {A} e.

(** [w_faults] is the environment's schedule for the store: each call
    that reaches the store ([execute] of a statement, [commit]) takes the
    next entry, and [true] makes it raise [sqlite3.Error] (locked file,
    I/O error, missing table, full disk).  When the schedule is used up
    the store works. *)
Record world : Type := World {
  w_conn : conn;
  w_faults : list bool;
  w_input : list string;
  w_output : list msg }.

Definition M (A : Type) : Type := world → outcome A * world.

Definition ret {A : Type} (a : A) : M A := λ w, (Ret a, w).

#[global] Instance M_ret : MRet M := @ret.

#[global] Instance M_bind : MBind M := λ A B k m w,
  match m w with
  | (Ret a, w') => k a w'
  | (Raise e, w') => (Raise e, w')
  end.

Definition raise {A : Type} (e : exn) : M A := λ w, (Raise e, w).

(** [try: m  except sqlite3.Error: h] *)
Definition try_except_sqlite {A : Type} (m h : M A) : M A := λ w,
  match m w with
  | (Raise SqliteError, w') => h w'
  | r => r
  end.

Definition set_input (inp : list string) (w : world) : world :=
  World (w_conn w) (w_faults w) inp (w_output w).

Definition set_working (d : db) (w : world) : world :=
  World (Conn (committed (w_conn w)) d) (w_faults w) (w_input w) (w_output w).

(** [input(...)] *)
Definition input : M string := λ w,
  match w_input w with
  | l :: inp => (Ret l, set_input inp w)
  | [] => (Raise EOFError, w)
  end.

(** [print(...)] *)
Definition print (m : msg) : M unit := λ w,
  (Ret tt, World (w_conn w) (w_faults w) (w_input w) (w_output w ++ [m])).

(** A call that reaches the store takes the next entry of the schedule. *)
Definition store_call : M unit := λ w,
  let w' := World (w_conn w) (tail (w_faults w)) (w_input w) (w_output w) in
  match head (w_faults w) with
  | Some true => (Raise SqliteError, w')
  | _ => (Ret tt, w')
  end.

(** Handing the integer parameters of a statement to SQLite: the
    [sqlite3] module raises [OverflowError] for one outside 64 bits,
    before the statement runs. *)
Definition bind_params (params : list Z) : M unit := λ w,
  if forallb int64 params then (Ret tt, w) else (Raise OverflowError, w).

Definition get_working : M db := λ w, (Ret (working (w_conn w)), w).

Definition put_working (d : db) : M unit := λ w, (Ret tt, set_working d w).

(** [cursor.execute(sql, params)] of a [SELECT], with its result. *)
Definition query {A : Type} (params : list Z) (q : db → A) : M A :=
  bind_params params;; store_call;; d ← get_working; ret (q d).

(** [cursor.execute(sql, params)] of an [INSERT], [UPDATE] or [DELETE]:
    the change is made in the open transaction. *)
Definition exec (params : list Z) (f : db → db) : M unit :=
  bind_params params;; store_call;; d ← get_working; put_working (f d).

Definition put_conn (c : conn) : M unit := λ w,
  (Ret tt, World c (w_faults w) (w_input w) (w_output w)).

(** [conn.commit()] *)
Definition commit : M unit :=
  store_call;; d ← get_working; put_conn (connect d).

(** [conn.rollback()] *)
Definition rollback : M unit := λ w,
  (Ret tt, World (connect (committed (w_conn w))) (w_faults w) (w_input w) (w_output w)).

(** [while True:] around one [input()]: the iteration either prints a
    message and goes round again, or leaves the loop through [k]. *)
Inductive loop_step (A : Type) : Type :=
  | Again (m : msg)
  | Leave (k : M A).
Arguments Again {A} m.
Arguments Leave {A} k.

Fixpoint input_loop {A : Type} (body : string → loop_step A)
    (inp : list string) (w : world) : outcome A * world :=
  match inp with
  | [] => (Raise EOFError, set_input [] w)
  | l :: inp' =>
      match body l with
      | Again m =>
          match print m (set_input inp' w) with
          | (_, w') => input_loop body inp' w'
          end
      | Leave k => k (set_input inp' w)
      end
  end.

Definition prompt_loop {A : Type} (body : string → loop_step A) : M A :=
  λ w, input_loop body (w_input w) w.

(** [for i, x in enumerate(xs, start): print(...)] *)
Fixpoint print_each {A : Type} (f : nat → A → msg) (start : nat) (xs : list A) : M unit :=
  match xs with
  | [] => ret tt
  | x :: xs' => print (f start x);; print_each f (S start) xs'
  end.

End Run.

Export Run.

(** ** The operations of the program *)

Module Ops.

(** [check_member_exists(conn, mid)] *)
Definition check_member_exists (m : string) : M bool :=
  query [] (λ d, bool_decide (is_Some (member d !! m))).

(** [check_book_exists(conn, bid)] *)
Definition check_book_exists (b : string) : M bool :=
  query [] (λ d, bool_decide (is_Some (book d !! b))).

(** [check_book_stock(conn, bid, qty)] *)
Definition check_book_stock (b : string) (qty : Z) : M (bool * Z) :=
  row ← query [] (λ d, bstock <$> book d !! b);
  match row with
  | Some stock => if qty <=? stock then ret (true, stock) else ret (false, stock)
  | None => ret (false, 0)
  end.

(** [get_book_price(conn, bid)] *)
Definition get_book_price (b : string) : M Z :=
  row ← query [] (λ d, bprice <$> book d !! b);
  ret (default 0 row).

(** The three prompt loops of [add_sale]. *)
Definition ask_date (l : string) : loop_step string :=
  if validate_date l then Leave (ret l) else Again MsgBadDate.

Definition ask_qty (l : string) : loop_step Z :=
  match py_int l with
  | Some q => if q <=? 0 then Again MsgQtyNotPositive else Leave (ret q)
  | None => Again MsgNotInteger
  end.

Definition ask_discount (l : string) : loop_step Z :=
  match py_int l with
  | Some v => if v <? 0 then Again MsgDiscountNegative else Leave (ret v)
  | None => Again MsgNotInteger
  end.

(** [add_sale(conn)] *)
Definition add_sale : M unit :=
  sdate ← prompt_loop ask_date;
  mid ← input;
  bid ← input;
  valid_ids ← (m ← check_member_exists mid;
               if (m : bool) then check_book_exists bid else ret false);
  sqty ← prompt_loop ask_qty;
  sdiscount ← prompt_loop ask_discount;
  if negb valid_ids then print MsgInvalidIds
  else
    sc ← check_book_stock bid sqty;
    if negb sc.1 then print (MsgStockShort sc.2)
    else
      bprice ← get_book_price bid;
      let stotal := bprice * sqty - sdiscount in
      try_except_sqlite
        (exec [sqty; sdiscount; stotal]
              (insert_sale (SaleRow sdate mid bid sqty sdiscount stotal));;
         exec [sqty] (decrement_stock bid sqty);;
         commit;;
         print (MsgSaleAdded stotal))
        (rollback;; print MsgError).

(** [print_sale_report(conn)] *)
Definition print_sale_report : M unit :=
  sales ← query [] select_report;
  print MsgReportHeader;;
  print_each MsgReportSale 1 sales.

(** [get_sales_list(conn)] *)
Definition get_sales_list : M (list listing) := query [] select_sales_list.

(** [display_sales_list(sales)] *)
Definition display_sales_list (sales : list listing) : M unit :=
  print MsgListHeader;;
  print_each MsgListItem 1 sales;;
  print MsgListFooter.

(** The discount prompt of [update_sale]. *)
Definition ask_new_discount (l : string) : loop_step Z :=
  match py_int l with
  | Some v => if v <? 0 then Again MsgDiscountNegative else Leave (ret v)
  | None => Again MsgDiscountNotInteger
  end.

(** What [update_sale] does once [idx] has passed the range check; the
    handler of [sqlite3.Error] is around all of it. *)
Definition update_selected (sales : list listing) (idx : Z) : M unit :=
  try_except_sqlite
    (match sales !! Z.to_nat idx with
     | None => raise IndexError
     | Some l =>
         let sid := l_sid l in
         sale ← query [sid] (select_sale_with_price sid);
         new_discount ← prompt_loop ask_new_discount;
         match sale with
         | None => raise TypeError
         | Some (s, bprice) =>
             let new_total := bprice * sqty s - new_discount in
             exec [new_discount; new_total; sid] (set_discount sid new_discount new_total);;
             commit;;
             print (MsgSaleUpdated sid new_total)
         end
     end)
    (rollback;; print MsgError).

(** The choice prompt shared by [update_sale] and [delete_sale]: empty
    input returns, a non-integer or an index outside the list asks
    again, a valid index runs [selected]. *)
Definition ask_choice (sales : list listing) (selected : Z → M unit)
    (choice : string) : loop_step unit :=
  if decide (choice = EmptyString) then Leave (ret tt)
  else
    match py_int choice with
    | None => Again MsgBadChoice
    | Some n =>
        let idx := n - 1 in
        if (idx <? 0) || (Z.of_nat (length sales) <=? idx) then Again MsgBadChoice
        else Leave (selected idx)
    end.

(** [update_sale(conn)] *)
Definition update_sale : M unit :=
  sales ← get_sales_list;
  match sales with
  | [] => print MsgNoSales
  | _ =>
      display_sales_list sales;;
      prompt_loop (ask_choice sales (update_selected sales))
  end.

(** What [delete_sale] does once [idx] has passed the range check. *)
Definition delete_selected (sales : list listing) (idx : Z) : M unit :=
  match sales !! Z.to_nat idx with
  | None => raise IndexError
  | Some l =>
      let sid := l_sid l in
      exec [sid] (delete_row sid);;
      commit;;
      print (MsgSaleDeleted sid)
  end.

(** [delete_sale(conn)] *)
Definition delete_sale : M unit :=
  sales ← get_sales_list;
  match sales with
  | [] => print MsgNoSales
  | _ =>
      display_sales_list sales;;
      prompt_loop (ask_choice sales (delete_selected sales))
  end.

(** [show_menu()] *)
Definition show_menu : M string := print MsgMenu;; input.

(** The [while True] loop of [main], run on a file that has the schema.
    Every iteration reads at least one line, so [fuel] above the number
    of lines left is never used up; [Ret false] says it was. *)
Fixpoint main_loop (fuel : nat) : M bool :=
  match fuel with
  | O => ret false
  | S fuel' =>
      choice ← show_menu;
      if decide (choice = EmptyString) then ret true
      else if decide (choice = "1") then add_sale;; main_loop fuel'
      else if decide (choice = "2") then print_sale_report;; main_loop fuel'
      else if decide (choice = "3") then update_sale;; main_loop fuel'
      else if decide (choice = "4") then delete_sale;; main_loop fuel'
      else if decide (choice = "5") then ret true
      else print MsgBadOption;; main_loop fuel'
  end.

(** [with connect_db() as conn: ...]: the connection commits when the
    block is left normally and rolls back when an exception leaves it,
    which then goes on to end the process. *)
Definition with_conn {A : Type} (body : M A) : M A := λ w,
  match body w with
  | (Ret a, w') => (commit;; ret a) w'
  | (Raise e, w') => (rollback;; raise e) w'
  end.

Definition main : M bool := λ w,
  with_conn (main_loop (S (length (w_input w)))) w.

(** The four operations the menu offers. *)
Inductive op : Type := OpAdd | OpReport | OpUpdate | OpDelete.

Definition run_op (o : op) : M unit :=
  match o with
  | OpAdd => add_sale
  | OpReport => print_sale_report
  | OpUpdate => update_sale
  | OpDelete => delete_sale
  end.

(** The connections the program can find itself with between two
    operations: it starts on the seeded file with a schedule, an input
    and an output of any kind; an operation that returns leaves its
    connection to the next one; an exception that leaves an operation
    ends the process, the [with] block rolls the transaction back, and
    the next process opens the file as it was committed; a normal exit
    commits what the transaction holds. *)
Inductive reachable : conn → Prop :=
  | reachable_seed : reachable (connect seed_db)
  | reachable_ret c o fl inp out w' :
      reachable c →
      run_op o (World c fl inp out) = (Ret tt, w') →
      reachable (w_conn w')
  | reachable_raise c o fl inp out e w' :
      reachable c →
      run_op o (World c fl inp out) = (Raise e, w') →
      reachable (connect (committed (w_conn w')))
  | reachable_exit c :
      reachable c →
      reachable (connect (working c)).

End Ops.

Export Ops.

(** * Specification vocabulary *)

Module Spec.

(** A line that a prompt loop answers with a message and a new prompt,
    and the messages a run of such lines produces. *)
Definition rejected {A : Type} (body : string → loop_step A) (l : string) : Prop :=
  ∃ m, body l = Again m.

Definition rejections {A : Type} (body : string → loop_step A) (ls : list string) : list msg :=
  omap (λ l, match body l with Again m => Some m | Leave _ => None end) ls.

(** ** What an operation does to the connection and the input

    [wp m c inp Q]: whatever the schedule and the output so far, a run
    of [m] on connection [c] and input [inp] ends with an outcome, a
    connection and a rest of the input that satisfy [Q]. *)

Definition wp {A : Type} (m : M A) (c : conn) (inp : list string)
    (Q : outcome A → conn → list string → Prop) : Prop :=
  ∀ fl out r w', m (World c fl inp out) = (r, w') → Q r (w_conn w') (w_input w').

(** [add_sale] leaves the connection as it found it, or has read a form
    that passes every check and has committed the new sale and the
    matching decrement. *)
Definition add_sale_post (d : db) (inp : list string)
    (r : outcome unit) (c' : conn) (inp' : list string) : Prop :=
  c' = connect d ∨
  ∃ (bad_dates : list string) sdate mid bid (bad_qtys : list string) qs q
    (bad_discs : list string) ds disc b,
    inp = (bad_dates ++ sdate :: mid :: bid :: bad_qtys ++ qs :: bad_discs ++ ds :: inp')%list ∧
    Forall (rejected ask_date) bad_dates ∧ validate_date sdate = true ∧
    Forall (rejected ask_qty) bad_qtys ∧ py_int qs = Some q ∧ 0 < q ∧
    Forall (rejected ask_discount) bad_discs ∧ py_int ds = Some disc ∧ 0 ≤ disc ∧
    is_Some (member d !! mid) ∧ book d !! bid = Some b ∧ q ≤ bstock b ∧
    r = Ret tt ∧
    c' = connect (decrement_stock bid q
            (insert_sale (SaleRow sdate mid bid q disc (bprice b * q - disc)) d)).

(** [update_sale] leaves the connection as it found it, or has read the
    number [n] of a listed sale and a discount [nd] that is not negative
    and has committed [nd] and the new total for that sale. *)
Definition update_sale_post (d : db) (inp : list string)
    (r : outcome unit) (c' : conn) (inp' : list string) : Prop :=
  c' = connect d ∨
  ∃ (bad_choices : list string) choice n l (bad_discs : list string) ds nd s b,
    inp = (bad_choices ++ choice :: bad_discs ++ ds :: inp')%list ∧
    Forall (rejected (ask_choice (select_sales_list d)
                                 (update_selected (select_sales_list d)))) bad_choices ∧
    py_int choice = Some n ∧ 1 ≤ n ∧
    select_sales_list d !! Z.to_nat (n - 1) = Some l ∧
    Forall (rejected ask_new_discount) bad_discs ∧ py_int ds = Some nd ∧ 0 ≤ nd ∧
    sale d !! l_sid l = Some s ∧ book d !! bid s = Some b ∧
    r = Ret tt ∧
    c' = connect (set_discount (l_sid l) nd (bprice b * sqty s - nd) d).

(** [delete_sale] leaves the connection as it found it, or has read the
    number [n] of a listed sale and has deleted that sale: committed,
    or, when [commit] raised, still in the open transaction with the
    exception on its way out. *)
Definition delete_sale_post (d : db) (inp : list string)
    (r : outcome unit) (c' : conn) (inp' : list string) : Prop :=
  c' = connect d ∨
  ∃ (bad_choices : list string) choice n l s,
    inp = (bad_choices ++ choice :: inp')%list ∧
    Forall (rejected (ask_choice (select_sales_list d)
                                 (delete_selected (select_sales_list d)))) bad_choices ∧
    py_int choice = Some n ∧ 1 ≤ n ∧
    select_sales_list d !! Z.to_nat (n - 1) = Some l ∧
    sale d !! l_sid l = Some s ∧
    ((r = Ret tt ∧ c' = connect (delete_row (l_sid l) d)) ∨
     (r = Raise SqliteError ∧ c' = Conn d (delete_row (l_sid l) d))).

(** The three properties of the tables that the claims speak of. *)
Definition stock_ok (d : db) : Prop :=
  ∀ b r, book d !! b = Some r → 0 ≤ bstock r.

Definition sales_ok (d : db) : Prop :=
  ∀ sid s, sale d !! sid = Some s → 0 < sqty s ∧ 0 ≤ sdiscount s.

Definition refs_ok (d : db) : Prop :=
  ∀ sid s, sale d !! sid = Some s → is_Some (book d !! bid s).

(** The first [n] store calls find the store working. *)
Definition calm (n : nat) (fl : list bool) : Prop :=
  Forall (λ f, f = false) (take n fl).

End Spec.

Export Spec.


(** * Further vocabulary: what the tables keep *)

Module Ledger.

(** Every sale names a member of the member table. *)
Definition members_ok (d : db) : Prop :=
  ∀ sid s, sale d !! sid = Some s → is_Some (member d !! mid s).

(** Every sale's total is its book's price times the quantity minus the
    discount. *)
Definition totals_ok (d : db) : Prop :=
  ∀ sid s, sale d !! sid = Some s →
    ∃ b, book d !! bid s = Some b ∧ stotal s = bprice b * sqty s - sdiscount s.

(** Every [sid] in use was handed out by the counter. *)
Definition sids_ok (d : db) : Prop :=
  ∀ sid s, sale d !! sid = Some s → 1 ≤ sid ≤ sale_seq d.

(** From [d0] to [d] the catalogue is kept: the same books, each with
    its title and its price, and no stock above what it was. *)
Definition catalogue_kept (d0 d : db) : Prop :=
  ∀ b,
    match book d0 !! b, book d !! b with
    | Some r0, Some r =>
        btitle r = btitle r0 ∧ bprice r = bprice r0 ∧ bstock r ≤ bstock r0
    | None, None => True
    | _, _ => False
    end.

(** What [print_each] prints: the items numbered from [start]. *)
Definition numbered {A : Type} (f : nat → A → msg) (start : nat) (xs : list A) : list msg :=
  imap (λ i x, f (start + i)%nat x) xs.

(** The messages of [display_sales_list]. *)
Definition list_msgs (sales : list listing) : list msg :=
  MsgListHeader :: numbered MsgListItem 1 sales ++ [MsgListFooter].

End Ledger.

Export Ledger.

(** * Start-up: [initialize_db]

    Before the schema is there a table can be missing, so start-up has
    a file of its own kind: each table present or not. *)

Module Init.

Record file : Type := File {
  f_member : option (gmap string member_row);
  f_book : option (gmap string book_row);
  f_sale : option (gmap Z sale_row);
  f_seq : Z }.

(** A new file, and the file of a database that has the three tables. *)
Definition empty_file : file := File None None None 0.

Definition file_of_db (d : db) : file :=
  File (Some (member d)) (Some (book d)) (Some (sale d)) (sale_seq d).

(** The statements the script is made of. *)
Inductive stmt : Type :=
  | CreateMember                              (* CREATE TABLE IF NOT EXISTS member *)
  | CreateBook                                (* CREATE TABLE IF NOT EXISTS book *)
  | CreateSale                                (* CREATE TABLE IF NOT EXISTS sale *)
  | InsertMember (k : string) (r : member_row) (* INSERT INTO member VALUES (...) *)
  | InsertBook (k : string) (r : book_row)     (* INSERT INTO book VALUES (...) *)
  | InsertSale (r : sale_row).                 (* INSERT INTO sale (sdate, ...) VALUES (...) *)

(** One statement on the file; [None] is the [sqlite3.Error] of the
    statement itself: a table that is not there, a primary key that is
    taken. *)
Definition run_stmt (s : stmt) (f : file) : option file :=
  match s with
  | CreateMember =>
      Some (File (Some (default ∅ (f_member f))) (f_book f) (f_sale f) (f_seq f))
  | CreateBook =>
      Some (File (f_member f) (Some (default ∅ (f_book f))) (f_sale f) (f_seq f))
  | CreateSale =>
      Some (File (f_member f) (f_book f) (Some (default ∅ (f_sale f))) (f_seq f))
  | InsertMember k r =>
      t ← f_member f;
      match t !! k with
      | Some _ => None
      | None => Some (File (Some (<[k := r]> t)) (f_book f) (f_sale f) (f_seq f))
      end
  | InsertBook k r =>
      t ← f_book f;
      match t !! k with
      | Some _ => None
      | None => Some (File (f_member f) (Some (<[k := r]> t)) (f_sale f) (f_seq f))
      end
  | InsertSale r =>
      t ← f_sale f;
      let sid := 1 + Z.max (f_seq f) (max_sid t) in
      Some (File (f_member f) (f_book f) (Some (<[sid := r]> t)) sid)
  end.

(** The script of [initialize_db], statement by statement. *)
Definition seed_script : list stmt :=
  [ CreateMember; CreateBook; CreateSale;
    InsertMember "M001" (MemberRow "Alice" "0912-345678" (Some "alice@example.com"));
    InsertMember "M002" (MemberRow "Bob" "0923-456789" (Some "bob@example.com"));
    InsertMember "M003" (MemberRow "Cathy" "0934-567890" (Some "cathy@example.com"));
    InsertBook "B001" (BookRow "Python Programming" 600 50);
    InsertBook "B002" (BookRow "Data Science Basics" 800 30);
    InsertBook "B003" (BookRow "Machine Learning Guide" 1200 20);
    InsertSale (SaleRow "2024-01-15" "M001" "B001" 2 100 1100);
    InsertSale (SaleRow "2024-01-16" "M002" "B002" 1 50 750);
    InsertSale (SaleRow "2024-01-17" "M001" "B003" 3 200 3400);
    InsertSale (SaleRow "2024-01-18" "M003" "B001" 1 0 600) ].

(** [cursor.executescript(...)]: the statements run one after the other
    outside any transaction, so each one that succeeds is in the file at
    once; the first that fails, by the store (the schedule, one entry
    per statement) or by itself, ends the script with [sqlite3.Error].
    The result says whether the script raised. *)
Fixpoint executescript (script : list stmt) (f : file) (fl : list bool)
    : bool * file * list bool :=
  match script with
  | [] => (false, f, fl)
  | s :: script' =>
      match head fl with
      | Some true => (true, f, tail fl)
      | _ =>
          match run_stmt s f with
          | None => (true, f, tail fl)
          | Some f' => executescript script' f' (tail fl)
          end
      end
  end.

(** [initialize_db(conn)].  The [SELECT] on [sqlite_master] takes the
    first entry of the schedule.  After [executescript] no transaction
    is open, so [conn.commit()], and [conn.rollback()] in the handler,
    have nothing to do.  The result is the file, the rest of the
    schedule, and whether the handler printed its message. *)
Definition initialize_db (f : file) (fl : list bool) : file * list bool * bool :=
  match head fl with
  | Some true => (f, tail fl, true)
  | _ =>
      match f_sale f with
      | Some _ => (f, tail fl, false)
      | None =>
          match executescript seed_script f (tail fl) with
          | (raised, f', fl') => (f', fl', raised)
          end
      end
  end.

(** The file after the first [n] statements of a script, when each of
    them succeeds. *)
Fixpoint after_stmts (script : list stmt) (n : nat) (f : file) : option file :=
  match n, script with
  | O, _ => Some f
  | S n', s :: script' => f' ← run_stmt s f; after_stmts script' n' f'
  | S _, [] => None
  end.

End Init.

Export Init.
(** * Properties *)

(** ** The date check *)

Section ValidateDate.

Lemma at_eol_inv l : at_eol l = true → l = [] ∨ l = [byte LF].
Proof.
  destruct l as [|ch [|ch' l]]; cbn [at_eol]; auto; [|discriminate].
  intros ->%Z.eqb_eq. auto.
Qed.

Lemma re_match_date l :
  re_match DATE_PATTERN l = true ↔
  date_points l ∨ ∃ l0 : list Z, date_points l0 ∧ l = (l0 ++ [byte LF])%list.
Proof.
  unfold re_match, DATE_PATTERN. cbn [app replicate re_match_at andb].
  split.
  - intros H.
    destruct l as [|y1 [|y2 [|y3 [|y4 [|c1 [|m1 [|m2 [|c2 [|d1 [|d2 l]]]]]]]]]];
      cbn [re_match_at andb] in H;
      repeat (apply andb_prop in H as [? H]); try discriminate.
    repeat match goal with
           | H : (_ =? _) = true |- _ => apply Z.eqb_eq in H; subst
           end.
    assert (Hshape : date_points
              [y1; y2; y3; y4; byte "-"; m1; m2; byte "-"; d1; d2]).
    { exists y1, y2, y3, y4, m1, m2, d1, d2. split; [|done].
      repeat constructor; assumption. }
    match goal with H : at_eol l = true |- _ => apply at_eol_inv in H as [-> | ->] end.
    + by left.
    + right. eexists. split; [exact Hshape | done].
  - intros [Hs | (l0 & Hs & ->)];
      destruct Hs as (y1 & y2 & y3 & y4 & m1 & m2 & d1 & d2 & Hd & ->);
      repeat match goal with
             | H : Forall _ (_ :: _) |- _ => apply Forall_cons in H as [? H]
             end;
      cbn [app re_match_at at_eol];
      rewrite !Z.eqb_refl;
      repeat match goal with H : is_decimal _ = true |- _ => rewrite H; clear H end;
      reflexivity.
Qed.

Lemma validate_date_accepts s :
  validate_date s = true ↔
  ∃ l, code_points s = Some l ∧
       (date_points l ∨ ∃ l0 : list Z, date_points l0 ∧ l = (l0 ++ [byte LF])%list).
Proof.
  unfold validate_date. destruct (code_points s) as [l|].
  - rewrite re_match_date. split; [by exists l|]. by intros (? & [= <-] & ?).
  - split; [done|]. by intros (? & ? & _).
Qed.

Lemma iso_date_shape_length s : iso_date_shape s → String.length s = 10%nat.
Proof. intros (? & ? & ? & ? & ? & ? & ? & ? & _ & ->). reflexivity. Qed.

(** The three examples of the specification. *)
Example validate_date_ok : validate_date "2024-01-15" = true.
Proof. reflexivity. Qed.

Example validate_date_short_month : validate_date "2024-1-15" = false.
Proof. reflexivity. Qed.

Example validate_date_no_calendar : validate_date "2024-13-40" = true.
Proof. reflexivity. Qed.

Example py_int_padded : py_int " 12_0 " = Some 120.
Proof. reflexivity. Qed.

Example py_int_signed : py_int "-7" = Some (-7).
Proof. reflexivity. Qed.

Example py_int_double_underscore : py_int "1__0" = None.
Proof. reflexivity. Qed.

Example py_int_big : py_int "9223372036854775808" = Some (2 ^ 63).
Proof. reflexivity. Qed.

(** Digits of other scripts are digits for [\d] and for [int()]; white
    space is what [int()] takes for it; the number of digits is
    capped. *)
Example validate_date_full_width : validate_date "２０２４-０１-１５" = true.
Proof. by vm_compute. Qed.

Example py_int_full_width : py_int "３" = Some 3 ∧ py_int "-１2" = Some (-12).
Proof. by vm_compute. Qed.

Example py_int_unit_separator :
  py_int (String "5" (String (ascii_of_nat 31) EmptyString)) = None ∧
  py_int (String "5" (String (ascii_of_nat 12) EmptyString)) = Some 5.
Proof. by vm_compute. Qed.

Example py_int_ideographic_space : py_int "　5　" = Some 5.
Proof. by vm_compute. Qed.

Example py_int_digit_cap :
  is_Some (py_int (string_of_list_ascii (replicate 4300 "1"%char))) ∧
  py_int (string_of_list_ascii (replicate 4301 "1"%char)) = None.
Proof. split; [vm_compute; eauto | by vm_compute]. Qed.

End ValidateDate.

(** ** Rules for [wp] *)

Section WpRules.

Context {A : Type}.
Implicit Types (c : conn) (inp : list string) (Q : outcome A → conn → list string → Prop).

Lemma wp_ret (a : A) c inp Q : Q (Ret a) c inp → wp (ret a) c inp Q.
Proof. intros HQ fl out r w' [= <- <-]. exact HQ. Qed.

Lemma wp_raise e c inp Q : Q (Raise e) c inp → wp (raise e) c inp Q.
Proof. intros HQ fl out r w' [= <- <-]. exact HQ. Qed.

Lemma wp_bind {B : Type} (m : M B) (k : B → M A) c inp Q :
  wp m c inp (λ r c1 inp1, match r with
                           | Ret b => wp (k b) c1 inp1 Q
                           | Raise e => Q (Raise e) c1 inp1
                           end) →
  wp (m ≫= k) c inp Q.
Proof.
  intros Hm fl out r w' Hrun. unfold mbind, M_bind in Hrun.
  destruct (m (World c fl inp out)) as [[b|e] w1] eqn:Em.
  - apply Hm in Em. destruct w1 as [c1 fl1 inp1 out1]. by eapply Em.
  - apply Hm in Em. by injection Hrun as <- <-.
Qed.

Lemma wp_try (m h : M A) c inp Q :
  wp m c inp (λ r c1 inp1, match r with
                           | Raise SqliteError => wp h c1 inp1 Q
                           | _ => Q r c1 inp1
                           end) →
  wp (try_except_sqlite m h) c inp Q.
Proof.
  intros Hm fl out r w' Hrun. unfold try_except_sqlite in Hrun.
  destruct (m (World c fl inp out)) as [[a|e] w1] eqn:Em; apply Hm in Em.
  - by injection Hrun as <- <-.
  - destruct w1 as [c1 fl1 inp1 out1].
    destruct e; try (by injection Hrun as <- <-). by eapply Em.
Qed.

Lemma wp_input_loop (body : string → loop_step A) c Q inp :
  (Forall (rejected body) inp → Q (Raise EOFError) c []) →
  (∀ bad l k rest, inp = (bad ++ l :: rest)%list → Forall (rejected body) bad →
                   body l = Leave k → wp k c rest Q) →
  ∀ w r w', w_conn w = c → input_loop body inp w = (r, w') →
            Q r (w_conn w') (w_input w').
Proof.
  induction inp as [|l inp IH]; intros Heof Hleave w r w' Hc; cbn [input_loop].
  - intros [= <- <-]. cbn. rewrite Hc. by apply Heof.
  - destruct (body l) as [m|k] eqn:Eb.
    + cbn. apply IH; [| |exact Hc].
      * intros Hrej. apply Heof. constructor; [by exists m | done].
      * intros bad l' k rest -> Hbad Hl'.
        apply (Hleave (l :: bad) l' k rest); [done | | done].
        constructor; [by exists m | done].
    + destruct w as [c0 fl inp0 out]. cbn in Hc. subst c0.
      unfold set_input. cbn. by apply (Hleave [] l k inp).
Qed.

Lemma wp_prompt_loop (body : string → loop_step A) c inp Q :
  (Forall (rejected body) inp → Q (Raise EOFError) c []) →
  (∀ bad l k rest, inp = (bad ++ l :: rest)%list → Forall (rejected body) bad →
                   body l = Leave k → wp k c rest Q) →
  wp (prompt_loop body) c inp Q.
Proof.
  intros Heof Hleave fl out r w'. unfold prompt_loop.
  by apply (wp_input_loop body c).
Qed.

End WpRules.

Section WpPrimitives.

Implicit Types (c : conn) (inp : list string).

Lemma wp_input c inp (Q : outcome string → conn → list string → Prop) :
  match inp with
  | [] => Q (Raise EOFError) c []
  | l :: rest => Q (Ret l) c rest
  end →
  wp input c inp Q.
Proof. destruct inp as [|l rest]; intros HQ fl out r w'; cbn; by intros [= <- <-]. Qed.

Lemma wp_print m c inp (Q : outcome unit → conn → list string → Prop) :
  Q (Ret tt) c inp → wp (print m) c inp Q.
Proof. intros HQ fl out r w' [= <- <-]. exact HQ. Qed.

Lemma wp_print_each {X : Type} (f : nat → X → msg) n xs c inp
    (Q : outcome unit → conn → list string → Prop) :
  Q (Ret tt) c inp → wp (print_each f n xs) c inp Q.
Proof.
  intros HQ. revert n. induction xs as [|x xs IH]; intros n; cbn [print_each].
  - by apply wp_ret.
  - apply wp_bind, wp_print. apply IH.
Qed.

Lemma wp_store_call c inp (Q : outcome unit → conn → list string → Prop) :
  Q (Ret tt) c inp → Q (Raise SqliteError) c inp → wp store_call c inp Q.
Proof.
  intros Hok Herr fl out r w'. unfold store_call. cbn.
  destruct (head fl) as [[|]|]; intros [= <- <-]; assumption.
Qed.

Lemma wp_bind_params ps c inp (Q : outcome unit → conn → list string → Prop) :
  (forallb int64 ps = true → Q (Ret tt) c inp) →
  (forallb int64 ps = false → Q (Raise OverflowError) c inp) →
  wp (bind_params ps) c inp Q.
Proof.
  intros Hok Herr fl out r w'. unfold bind_params.
  destruct (forallb int64 ps); intros [= <- <-]; auto.
Qed.

Lemma wp_get_working c inp (Q : outcome db → conn → list string → Prop) :
  Q (Ret (working c)) c inp → wp get_working c inp Q.
Proof. intros HQ fl out r w' [= <- <-]. exact HQ. Qed.

Lemma wp_put_working d c inp (Q : outcome unit → conn → list string → Prop) :
  Q (Ret tt) (Conn (committed c) d) inp → wp (put_working d) c inp Q.
Proof. intros HQ fl out r w' [= <- <-]. exact HQ. Qed.

Lemma wp_query {X : Type} ps (q : db → X) c inp (Q : outcome X → conn → list string → Prop) :
  (forallb int64 ps = true → Q (Ret (q (working c))) c inp) →
  (forallb int64 ps = true → Q (Raise SqliteError) c inp) →
  (forallb int64 ps = false → Q (Raise OverflowError) c inp) →
  wp (query ps q) c inp Q.
Proof.
  intros Hok Herr Hov. unfold query.
  apply wp_bind, wp_bind_params; [intros Hps | exact Hov].
  apply wp_bind, wp_store_call; [| by apply Herr].
  apply wp_bind, wp_get_working, wp_ret. by apply Hok.
Qed.

Lemma wp_exec ps (f : db → db) c inp (Q : outcome unit → conn → list string → Prop) :
  (forallb int64 ps = true → Q (Ret tt) (Conn (committed c) (f (working c))) inp) →
  (forallb int64 ps = true → Q (Raise SqliteError) c inp) →
  (forallb int64 ps = false → Q (Raise OverflowError) c inp) →
  wp (exec ps f) c inp Q.
Proof.
  intros Hok Herr Hov. unfold exec.
  apply wp_bind, wp_bind_params; [intros Hps | exact Hov].
  apply wp_bind, wp_store_call; [| by apply Herr].
  apply wp_bind, wp_get_working, wp_put_working. by apply Hok.
Qed.

Lemma wp_commit c inp (Q : outcome unit → conn → list string → Prop) :
  Q (Ret tt) (connect (working c)) inp → Q (Raise SqliteError) c inp →
  wp commit c inp Q.
Proof.
  intros Hok Herr. unfold commit.
  apply wp_bind, wp_store_call; [| exact Herr].
  apply wp_bind, wp_get_working.
  intros fl out r w' [= <- <-]. exact Hok.
Qed.

Lemma wp_rollback c inp (Q : outcome unit → conn → list string → Prop) :
  Q (Ret tt) (connect (committed c)) inp → wp rollback c inp Q.
Proof. intros HQ fl out r w' [= <- <-]. exact HQ. Qed.

End WpPrimitives.

Ltac wp_step :=
  lazymatch goal with
  | |- wp (mbind _ _) _ _ _ => apply wp_bind
  | |- wp (ret _) _ _ _ => apply wp_ret
  | |- wp (raise _) _ _ _ => apply wp_raise
  | |- wp (print _) _ _ _ => apply wp_print
  | |- wp (print_each _ _ _) _ _ _ => apply wp_print_each
  | |- wp (query _ _) _ _ _ => apply wp_query
  | |- wp (exec _ _) _ _ _ => apply wp_exec
  | |- wp commit _ _ _ => apply wp_commit
  | |- wp rollback _ _ _ => apply wp_rollback
  | |- wp (try_except_sqlite _ _) _ _ _ => apply wp_try
  end.

Ltac wp_steps := repeat (wp_step; cbn beta iota; intros).

(** ** The effect of each operation on a connection with no open
    transaction *)

Section Effects.

Variable d : db.

Lemma ask_date_leave l k :
  ask_date l = Leave k → validate_date l = true ∧ k = ret l.
Proof. unfold ask_date. destruct (validate_date l); [|done]. by intros [= <-]. Qed.

Lemma ask_qty_leave l k :
  ask_qty l = Leave k → ∃ q, py_int l = Some q ∧ 0 < q ∧ k = ret q.
Proof.
  unfold ask_qty. destruct (py_int l) as [q|]; [|done].
  destruct (Z.leb_spec q 0); [done|]. intros [= <-]. eauto.
Qed.

Lemma ask_discount_leave l k :
  ask_discount l = Leave k → ∃ v, py_int l = Some v ∧ 0 ≤ v ∧ k = ret v.
Proof.
  unfold ask_discount. destruct (py_int l) as [v|]; [|done].
  destruct (Z.ltb_spec v 0); [done|]. intros [= <-]. eauto.
Qed.

Lemma ask_new_discount_leave l k :
  ask_new_discount l = Leave k → ∃ v, py_int l = Some v ∧ 0 ≤ v ∧ k = ret v.
Proof.
  unfold ask_new_discount. destruct (py_int l) as [v|]; [|done].
  destruct (Z.ltb_spec v 0); [done|]. intros [= <-]. eauto.
Qed.

Lemma add_sale_effect inp : wp add_sale (connect d) inp (add_sale_post d inp).
Proof.
  unfold add_sale.
  wp_step. apply wp_prompt_loop; [intros; by left|].
  intros bad_dates sdate k inp1 -> Hbd [Hdate ->]%ask_date_leave. wp_step.
  wp_step. apply wp_input. destruct inp1 as [|mid inp2]; [by left|].
  wp_step. apply wp_input. destruct inp2 as [|bid inp3]; [by left|].
  match goal with |- wp (mbind ?k _) _ _ _ => set (rest := k) end.
  assert (Hrest : ∀ v, (v = true → is_Some (member d !! mid) ∧ is_Some (book d !! bid)) →
                       wp (rest v) (connect d) inp3
                          (add_sale_post d (bad_dates ++ sdate :: mid :: bid :: inp3)%list)).
  { intros v Hv. subst rest. cbn beta.
    wp_step. apply wp_prompt_loop; [intros; by left|].
    intros bad_qtys qs ? inp4 -> Hbq (q & Hqs & Hq & ->)%ask_qty_leave. wp_steps.
    apply wp_prompt_loop; [intros; by left|].
    intros bad_discs ds ? inp5 -> Hbdisc (disc & Hds & Hdisc & ->)%ask_discount_leave.
    wp_steps.
    destruct v; cbn [negb]; [|wp_steps; by left].
    destruct (Hv eq_refl) as [Hm [b Hb]].
    unfold check_book_stock, get_book_price. wp_steps; try by left.
    cbn [working connect]. rewrite Hb. cbn [fmap option_fmap option_map].
    destruct (Z.leb_spec q (bstock b)) as [Hstock|Hstock]; wp_steps; cbn [fst snd negb];
      wp_steps; try by left.
    cbn [working connect default]. rewrite Hb. cbn [fmap option_fmap option_map default].
    wp_steps; try by left.
    - right. exists bad_dates, sdate, mid, bid, bad_qtys, qs, q, bad_discs, ds, disc, b.
      cbn [working committed connect]. done.
    - exfalso. cbn [forallb] in *.
      repeat match goal with
             | H : _ && _ = true |- _ => apply andb_prop in H as [? ?]
             end.
      match goal with H : int64 q && true = false |- _ => rewrite andb_true_r in H end.
      congruence. }
  unfold check_member_exists, check_book_exists.
  wp_steps; try by left.
  cbn [working connect].
  case_bool_decide as Hm; wp_steps; try by left.
  - apply Hrest. by intros Hb%bool_decide_eq_true.
  - by apply Hrest.
Qed.

Lemma sales_by_sid_elem x : x ∈ sales_by_sid d ↔ sale d !! x.1 = Some x.2.
Proof.
  unfold sales_by_sid. rewrite merge_sort_Permutation.
  destruct x as [k v]. apply elem_of_map_to_list.
Qed.

Lemma select_sales_list_elem l :
  l ∈ select_sales_list d →
  ∃ s m, sale d !! l_sid l = Some s ∧ member d !! mid s = Some m ∧
         l = Listing (l_sid l) (sdate s) (mname m).
Proof.
  unfold select_sales_list. rewrite list_elem_of_omap.
  intros ([k s] & Hin%sales_by_sid_elem & Hl). cbn in Hin, Hl.
  destruct (member d !! mid s) as [m|] eqn:Hm; [|done].
  injection Hl as <-. eauto.
Qed.

Lemma select_sale_with_price_Some sid s p :
  select_sale_with_price sid d = Some (s, p) →
  sale d !! sid = Some s ∧ ∃ b, book d !! bid s = Some b ∧ p = bprice b.
Proof.
  unfold select_sale_with_price.
  destruct (sale d !! sid) as [s0|]; [|done]. cbn.
  destruct (book d !! bid s0) as [b|] eqn:Hb; [|done]. cbn.
  intros [= <- <-]. eauto.
Qed.

Lemma select_sale_with_price_found l :
  refs_ok d → l ∈ select_sales_list d →
  is_Some (select_sale_with_price (l_sid l) d).
Proof.
  intros Hrefs (s & m & Hs & _ & _)%select_sales_list_elem.
  unfold select_sale_with_price. rewrite Hs. cbn.
  destruct (Hrefs _ _ Hs) as [b ->]. cbn. eauto.
Qed.

Lemma ask_choice_leave sales (sel : Z → M unit) choice k :
  ask_choice sales sel choice = Leave k →
  k = ret tt ∨
  ∃ n l, py_int choice = Some n ∧ sales !! Z.to_nat (n - 1) = Some l ∧
         1 ≤ n ∧ k = sel (n - 1).
Proof.
  unfold ask_choice. case_decide; [intros [= <-]; by left|].
  destruct (py_int choice) as [n|]; [|done]. cbn zeta.
  destruct (Z.ltb_spec (n - 1) 0); [done|].
  destruct (Z.leb_spec (Z.of_nat (length sales)) (n - 1)); [done|].
  cbn [orb]. intros [= <-]. right.
  destruct (lookup_lt_is_Some_2 sales (Z.to_nat (n - 1))) as [l Hl]; [lia|].
  exists n, l. auto with lia.
Qed.

Lemma update_sale_effect inp :
  wp update_sale (connect d) inp
     (λ r c' inp', update_sale_post d inp r c' inp' ∧ r ≠ Raise IndexError ∧
                   (refs_ok d → r ≠ Raise TypeError)).
Proof.
  unfold update_sale, get_sales_list, display_sales_list.
  wp_step. apply wp_query; cbn [working connect]; try (intros; by split; [left|]).
  intros _.
  destruct (select_sales_list d) as [|l0 sales0] eqn:Esales;
    [wp_steps; by split; [left|]|].
  rewrite <- Esales. clear l0 sales0 Esales.
  wp_steps. apply wp_prompt_loop; [intros; by split; [left|]|].
  intros bad_choices choice k inp1 -> Hbc
    [-> | (n & l & Hn & Hl & Hn1 & ->)]%ask_choice_leave;
    [wp_steps; by split; [left|]|].
  unfold update_selected. rewrite Hl.
  assert (Hin : l ∈ select_sales_list d) by (eapply list_elem_of_lookup_2, Hl).
  wp_step. wp_step. apply wp_query; cbn [working connect];
    try (intros; wp_steps; by split; [left|]).
  intros _. cbn beta iota.
  wp_step. apply wp_prompt_loop; [intros; by split; [left|]|].
  intros bad_discs ds ? inp2 -> Hbdisc (nd & Hds & Hnd & ->)%ask_new_discount_leave.
  wp_steps.
  destruct (select_sale_with_price (l_sid l) d) as [[s p]|] eqn:Esel.
  - apply select_sale_with_price_Some in Esel as (Hs & b & Hb & ->).
    wp_steps; cbn [committed working connect]; try (by split; [left|]).
    split; [|done]. right.
    by exists bad_choices, choice, n, l, bad_discs, ds, nd, s, b.
  - wp_steps. split; [by left|]. split; [done|].
    intros Hrefs. apply (select_sale_with_price_found l Hrefs) in Hin.
    rewrite Esel in Hin. by destruct Hin.
Qed.

Lemma delete_sale_effect inp :
  wp delete_sale (connect d) inp
     (λ r c' inp', delete_sale_post d inp r c' inp' ∧ r ≠ Raise IndexError).
Proof.
  unfold delete_sale, get_sales_list, display_sales_list.
  wp_step. apply wp_query; cbn [working connect]; try (intros; by split; [left|]).
  intros _.
  destruct (select_sales_list d) as [|l0 sales0] eqn:Esales;
    [wp_steps; by split; [left|]|].
  rewrite <- Esales. clear l0 sales0 Esales.
  wp_steps. apply wp_prompt_loop; [intros; by split; [left|]|].
  intros bad_choices choice k inp1 -> Hbc
    [-> | (n & l & Hn & Hl & Hn1 & ->)]%ask_choice_leave;
    [wp_steps; by split; [left|]|].
  unfold delete_selected. rewrite Hl.
  assert (Hin : l ∈ select_sales_list d) by (eapply list_elem_of_lookup_2, Hl).
  apply select_sales_list_elem in Hin as (s & m & Hs & _ & _).
  wp_steps; cbn [committed working connect]; try (by split; [left|]).
  - split; [|done]. right. exists bad_choices, choice, n, l, s.
    repeat (split; [done|]). by left.
  - split; [|done]. right. exists bad_choices, choice, n, l, s.
    repeat (split; [done|]). by right.
Qed.

Lemma print_sale_report_effect inp :
  wp print_sale_report (connect d) inp (λ r c' inp', c' = connect d).
Proof. unfold print_sale_report. wp_steps; done. Qed.

End Effects.

(** ** The tables after each kind of change *)

Section Tables.

Implicit Types (d : db).

Lemma max_sid_ge (t : gmap Z sale_row) k v : t !! k = Some v → k ≤ max_sid t.
Proof.
  unfold max_sid. revert k v.
  apply (map_fold_weak_ind (λ acc (m : gmap Z sale_row), ∀ k v, m !! k = Some v → k ≤ acc)).
  - intros k v. by rewrite lookup_empty.
  - intros i x m r _ IH k v. rewrite lookup_insert_Some.
    intros [[-> _] | [_ Hk]]; [lia|]. specialize (IH _ _ Hk). lia.
Qed.

(** The [sid] that [AUTOINCREMENT] hands out is not in the table. *)
Lemma next_sid_fresh d : sale d !! next_sid d = None.
Proof.
  destruct (sale d !! next_sid d) as [v|] eqn:E; [|done].
  apply max_sid_ge in E. unfold next_sid in E. lia.
Qed.

Lemma sale_after_add d b q r sid :
  sale (decrement_stock b q (insert_sale r d)) !! sid =
  if decide (sid = next_sid d) then Some r else sale d !! sid.
Proof.
  cbn. case_decide as E; [subst; by rewrite lookup_insert_eq|].
  by rewrite lookup_insert_ne.
Qed.

Lemma book_after_add d b q r b' :
  book (decrement_stock b q (insert_sale r d)) !! b' =
  if decide (b' = b)
  then (λ x, BookRow (btitle x) (bprice x) (bstock x - q)) <$> book d !! b
  else book d !! b'.
Proof.
  cbn. case_decide as E; [subst; by rewrite lookup_alter_eq|].
  by rewrite lookup_alter_ne.
Qed.

Lemma stock_ok_add d b q r x :
  stock_ok d → book d !! b = Some x → q ≤ bstock x →
  stock_ok (decrement_stock b q (insert_sale r d)).
Proof.
  intros Hd Hb Hq b' y. rewrite book_after_add, Hb.
  case_decide; [intros [= <-]; cbn; lia | apply Hd].
Qed.

Lemma sales_ok_add d b q r :
  sales_ok d → 0 < sqty r → 0 ≤ sdiscount r →
  sales_ok (decrement_stock b q (insert_sale r d)).
Proof.
  intros Hd Hq Hdisc sid s. rewrite sale_after_add.
  case_decide; [by intros [= <-] | apply Hd].
Qed.

Lemma refs_ok_add d b q r :
  refs_ok d → is_Some (book d !! bid r) →
  refs_ok (decrement_stock b q (insert_sale r d)).
Proof.
  intros Hd Hr sid s. rewrite sale_after_add. intros Hs.
  assert (is_Some (book d !! bid s)) as [y Hy].
  { case_decide; [by injection Hs as <- | by eapply Hd]. }
  clear Hs. rewrite book_after_add. case_decide as E; [rewrite <- E|]; rewrite Hy; cbn; eauto.
Qed.

Lemma sale_after_set_discount d sid nd tot sid' :
  sale (set_discount sid nd tot d) !! sid' =
  if decide (sid' = sid)
  then (λ r, SaleRow (sdate r) (mid r) (bid r) (sqty r) nd tot) <$> sale d !! sid
  else sale d !! sid'.
Proof.
  cbn. case_decide as E; [subst; by rewrite lookup_alter_eq|].
  by rewrite lookup_alter_ne.
Qed.

Lemma sales_ok_set_discount d sid nd tot :
  sales_ok d → 0 ≤ nd → sales_ok (set_discount sid nd tot d).
Proof.
  intros Hd Hnd sid' s. rewrite sale_after_set_discount.
  case_decide; [|apply Hd].
  destruct (sale d !! sid) as [r|] eqn:Hr; [|done].
  intros [= <-]. cbn. split; [by eapply Hd | done].
Qed.

Lemma refs_ok_set_discount d sid nd tot :
  refs_ok d → refs_ok (set_discount sid nd tot d).
Proof.
  intros Hd sid' s. rewrite sale_after_set_discount.
  case_decide; [|apply Hd].
  destruct (sale d !! sid) as [r|] eqn:Hr; [|done].
  intros [= <-]. cbn. by eapply Hd.
Qed.

Lemma sale_after_delete d sid sid' :
  sale (delete_row sid d) !! sid' =
  if decide (sid' = sid) then None else sale d !! sid'.
Proof.
  cbn. case_decide as E; [subst; by rewrite lookup_delete_eq|].
  by rewrite lookup_delete_ne.
Qed.

Lemma sales_ok_delete d sid : sales_ok d → sales_ok (delete_row sid d).
Proof.
  intros Hd sid' s. rewrite sale_after_delete. case_decide; [done | apply Hd].
Qed.

Lemma refs_ok_delete d sid : refs_ok d → refs_ok (delete_row sid d).
Proof.
  intros Hd sid' s. rewrite sale_after_delete. case_decide; [done | apply Hd].
Qed.

Lemma stock_ok_seed : stock_ok seed_db.
Proof.
  intros b r Hb. apply elem_of_list_to_map_2 in Hb.
  repeat (apply elem_of_cons in Hb as [[= -> ->] | Hb]; [cbn; lia|]).
  by apply elem_of_nil in Hb.
Qed.

Lemma sales_ok_seed : sales_ok seed_db.
Proof.
  intros sid s Hs. apply elem_of_list_to_map_2 in Hs.
  repeat (apply elem_of_cons in Hs as [[= -> ->] | Hs]; [cbn; lia|]).
  by apply elem_of_nil in Hs.
Qed.

Lemma refs_ok_seed : refs_ok seed_db.
Proof.
  intros sid s Hs. apply elem_of_list_to_map_2 in Hs.
  repeat (apply elem_of_cons in Hs as [[= -> ->] | Hs]; [by vm_compute; eauto|]).
  by apply elem_of_nil in Hs.
Qed.

End Tables.

(** ** Reachable connections *)

Section Reachable.

(** Between two operations there is no open transaction, and the three
    table properties hold. *)
Lemma reachable_inv c :
  reachable c → ∃ d, c = connect d ∧ stock_ok d ∧ sales_ok d ∧ refs_ok d.
Proof.
  induction 1 as [| c o fl inp out w' _ (d & -> & Hst & Hsa & Hre) Hrun
                  | c o fl inp out e w' _ (d & -> & Hst & Hsa & Hre) Hrun
                  | c _ (d & -> & Hst & Hsa & Hre)].
  - exists seed_db. auto using stock_ok_seed, sales_ok_seed, refs_ok_seed.
  - destruct o; cbn [run_op] in Hrun.
    + apply add_sale_effect in Hrun as [-> | Hadd]; [by eauto|].
      destruct Hadd as (? & sdate & mid & bid & ? & ? & q & ? & ? & disc & b & _ & _ & _
                        & _ & _ & Hq & _ & _ & Hdisc & _ & Hb & Hle & _ & ->).
      eexists. split; [done|].
      split; [by eapply stock_ok_add|]. split; [by apply sales_ok_add|].
      apply refs_ok_add; [done | by cbn; eauto].
    + apply print_sale_report_effect in Hrun as ->. eauto.
    + apply update_sale_effect in Hrun as [[-> | Hupd] _]; [by eauto|].
      destruct Hupd as (? & ? & ? & l & ? & ? & nd & s & b & _ & _ & _ & _ & _ & _ & _
                        & Hnd & _ & _ & _ & ->).
      eexists. split; [done|].
      split; [done|]. split; [by apply sales_ok_set_discount|].
      by apply refs_ok_set_discount.
    + apply delete_sale_effect in Hrun as [[-> | Hdel] _]; [by eauto|].
      destruct Hdel as (? & ? & ? & l & s & _ & _ & _ & _ & _ & _ & [[_ ->] | [[=] _]]).
      eexists. split; [done|].
      split; [done|]. split; [by apply sales_ok_delete | by apply refs_ok_delete].
  - destruct o; cbn [run_op] in Hrun.
    + apply add_sale_effect in Hrun as [-> | Hadd]; [cbn; by eauto|].
      destruct Hadd as (? & ? & ? & ? & ? & ? & ? & ? & ? & ? & ? & _ & _ & _
                        & _ & _ & _ & _ & _ & _ & _ & _ & _ & [=] & _).
    + apply print_sale_report_effect in Hrun as ->. cbn. eauto.
    + apply update_sale_effect in Hrun as [[-> | Hupd] _]; [cbn; by eauto|].
      destruct Hupd as (? & ? & ? & ? & ? & ? & ? & ? & ? & _ & _ & _ & _ & _ & _ & _
                        & _ & _ & _ & [=] & _).
    + apply delete_sale_effect in Hrun as [[-> | Hdel] _]; [cbn; by eauto|].
      destruct Hdel as (? & ? & ? & l & s & _ & _ & _ & _ & _ & _ & [[[=] _] | [_ ->]]).
      cbn. eauto.
  - cbn. eauto.
Qed.

End Reachable.

(** ** Runs on a given input and schedule *)

Section Runs.

Implicit Types (c : conn) (fl : list bool) (inp : list string) (out : list msg).

Lemma calm_lookup n fl i : calm n fl → (i < n)%nat → fl !! i ≠ Some true.
Proof.
  unfold calm. rewrite Forall_lookup. intros H Hi Hf.
  specialize (H i true). rewrite lookup_take_lt in H by done. by specialize (H Hf).
Qed.

Lemma store_call_ok c fl inp out :
  head fl ≠ Some true →
  store_call (World c fl inp out) = (Ret tt, World c (tail fl) inp out).
Proof. unfold store_call. cbn. by destruct (head fl) as [[|]|]. Qed.

Lemma store_call_fault c fl inp out :
  head fl = Some true →
  store_call (World c fl inp out) = (Raise SqliteError, World c (tail fl) inp out).
Proof. unfold store_call. cbn. by intros ->. Qed.

Lemma query_ok {X : Type} ps (q : db → X) c fl inp out :
  forallb int64 ps = true → head fl ≠ Some true →
  query ps q (World c fl inp out) = (Ret (q (working c)), World c (tail fl) inp out).
Proof.
  intros Hps Hfl. unfold query, bind_params, mbind, M_bind.
  by rewrite Hps, store_call_ok.
Qed.

Lemma query_run {X : Type} ps (q : db → X) c fl inp out :
  forallb int64 ps = true →
  query ps q (World c fl inp out) =
  (if bool_decide (head fl = Some true) then Raise SqliteError else Ret (q (working c)),
   World c (tail fl) inp out).
Proof.
  intros Hps. case_bool_decide as Hfl.
  - unfold query, bind_params, mbind, M_bind. by rewrite Hps, store_call_fault.
  - by apply query_ok.
Qed.

Lemma exec_ok ps (f : db → db) c fl inp out :
  forallb int64 ps = true → head fl ≠ Some true →
  exec ps f (World c fl inp out) =
  (Ret tt, World (Conn (committed c) (f (working c))) (tail fl) inp out).
Proof.
  intros Hps Hfl. unfold exec, bind_params, mbind, M_bind.
  by rewrite Hps, store_call_ok.
Qed.

Lemma exec_fault ps (f : db → db) c fl inp out :
  forallb int64 ps = true → head fl = Some true →
  exec ps f (World c fl inp out) = (Raise SqliteError, World c (tail fl) inp out).
Proof.
  intros Hps Hfl. unfold exec, bind_params, mbind, M_bind.
  by rewrite Hps, store_call_fault.
Qed.

Lemma commit_ok c fl inp out :
  head fl ≠ Some true →
  commit (World c fl inp out) = (Ret tt, World (connect (working c)) (tail fl) inp out).
Proof. intros Hfl. unfold commit, mbind, M_bind. by rewrite store_call_ok. Qed.

Lemma commit_fault c fl inp out :
  head fl = Some true →
  commit (World c fl inp out) = (Raise SqliteError, World c (tail fl) inp out).
Proof. intros Hfl. unfold commit, mbind, M_bind. by rewrite store_call_fault. Qed.

(** A prompt loop skips the lines it rejects, one message each, and
    leaves through the first line it accepts. *)
Lemma input_loop_run {X : Type} (body : string → loop_step X) bad l k rest :
  Forall (rejected body) bad → body l = Leave k →
  ∀ w, input_loop body (bad ++ l :: rest) w =
       k (World (w_conn w) (w_faults w) rest (w_output w ++ rejections body bad)).
Proof.
  intros Hbad Hl.
  induction Hbad as [|x bad [m Hx] _ IH]; intros w.
  - cbn [app input_loop rejections omap list_omap]. rewrite Hl.
    unfold set_input. by rewrite app_nil_r.
  - cbn [app input_loop]. rewrite Hx. unfold print. cbn.
    rewrite IH. unfold rejections. cbn [omap list_omap]. rewrite Hx.
    cbn. by rewrite <- app_assoc.
Qed.

Lemma prompt_loop_run {X : Type} (body : string → loop_step X) bad l k c fl rest out :
  Forall (rejected body) bad → body l = Leave k →
  prompt_loop body (World c fl (bad ++ l :: rest) out) =
  k (World c fl rest (out ++ rejections body bad)).
Proof. intros Hbad Hl. unfold prompt_loop. by rewrite (input_loop_run body bad l k rest). Qed.

Lemma tail_drop fl n : tail (drop n fl) = drop (S n) fl.
Proof.
  revert fl. induction n as [|n IH]; intros [|f fl]; cbn; try done.
Qed.

Lemma head_drop k fl : head (drop k fl) = fl !! k.
Proof. by rewrite head_lookup, lookup_drop, Nat.add_0_r. Qed.

Lemma calm_head_drop n k fl : calm n fl → (k < n)%nat → head (drop k fl) ≠ Some true.
Proof. intros H Hk. rewrite head_drop. by apply (calm_lookup n). Qed.

Lemma int64_between lo hi z :
  int64 lo = true → int64 hi = true → lo ≤ z ≤ hi → int64 z = true.
Proof.
  unfold int64. rewrite !andb_true_iff, !Z.leb_le, !Z.ltb_lt. lia.
Qed.

End Runs.

(** ** [add_sale] *)

Lemma ask_date_accept l : validate_date l = true → ask_date l = Leave (ret l).
Proof. unfold ask_date. by intros ->. Qed.

Lemma ask_qty_accept l q : py_int l = Some q → 0 < q → ask_qty l = Leave (ret q).
Proof. unfold ask_qty. intros -> Hq. by destruct (Z.leb_spec q 0); [lia|]. Qed.

Lemma ask_discount_accept l v :
  py_int l = Some v → 0 ≤ v → ask_discount l = Leave (ret v).
Proof. unfold ask_discount. intros -> Hv. by destruct (Z.ltb_spec v 0); [lia|]. Qed.

Ltac through_prompts :=
  unfold ret at 1; cbv beta iota;
  erewrite (prompt_loop_run ask_qty) by eauto using ask_qty_accept;
  unfold ret at 1; cbv beta iota;
  erewrite (prompt_loop_run ask_discount) by eauto using ask_discount_accept;
  unfold ret at 1; cbv beta iota.

(** The steps of a run of [add_sale] up to the [try], on an input that
    gets through the three prompts and a store that answers the four
    checks. *)
Ltac add_sale_checks Hfault Hb Hle :=
  cbv beta iota zeta delta [ret input set_input w_input w_conn w_faults w_output];
  unfold check_member_exists, check_book_exists, check_book_stock, get_book_price,
    mbind, M_bind;
  rewrite query_ok by (done || (apply Hfault; lia));
  cbv beta iota; cbn [working connect]; rewrite bool_decide_eq_true_2 by done;
  rewrite tail_drop, query_ok by (done || (apply Hfault; lia));
  cbv beta iota; cbn [working connect];
  rewrite bool_decide_eq_true_2 by (rewrite Hb; eauto);
  erewrite (prompt_loop_run ask_qty) by eauto using ask_qty_accept;
  unfold ret at 1; cbv beta iota;
  erewrite (prompt_loop_run ask_discount) by eauto using ask_discount_accept;
  unfold ret at 1; cbv beta iota; cbn [negb];
  rewrite tail_drop, query_ok by (done || (apply Hfault; lia));
  cbv beta iota; cbn [working connect]; rewrite Hb; cbn [fmap option_fmap option_map];
  rewrite (proj2 (Z.leb_le _ _) Hle);
  unfold ret at 1; cbv beta iota; cbn [fst snd negb];
  rewrite tail_drop, query_ok by (done || (apply Hfault; lia));
  cbv beta iota; cbn [working connect]; rewrite Hb;
  cbn [fmap option_fmap option_map default from_option id];
  unfold ret at 1; cbv beta iota;
  unfold try_except_sqlite.

Section AddSale.

Variables (bad_dates : list string) (sdate mid bid : string).
Variables (bad_qtys : list string) (qs : string) (q : Z).
Variables (bad_discs : list string) (ds : string) (disc : Z).
Variable rest : list string.

Hypothesis Hbad_dates : Forall (rejected ask_date) bad_dates.
Hypothesis Hdate : validate_date sdate = true.
Hypothesis Hbad_qtys : Forall (rejected ask_qty) bad_qtys.
Hypothesis Hqs : py_int qs = Some q.
Hypothesis Hq : 0 < q.
Hypothesis Hbad_discs : Forall (rejected ask_discount) bad_discs.
Hypothesis Hds : py_int ds = Some disc.
Hypothesis Hdisc : 0 ≤ disc.

Lemma add_sale_created_run d fl out b :
  is_Some (member d !! mid) → book d !! bid = Some b → q ≤ bstock b →
  int64 (bstock b) = true → int64 disc = true → int64 (bprice b * q - disc) = true →
  calm 7 fl →
  add_sale (World (connect d) fl
              (bad_dates ++ sdate :: mid :: bid :: bad_qtys ++ qs :: bad_discs ++ ds :: rest)
              out) =
  (Ret tt,
   World (connect (decrement_stock bid q
            (insert_sale (SaleRow sdate mid bid q disc (bprice b * q - disc)) d)))
         (drop 7 fl) rest
         (out ++ rejections ask_date bad_dates ++ rejections ask_qty bad_qtys
              ++ rejections ask_discount bad_discs
              ++ [MsgSaleAdded (bprice b * q - disc)])).
Proof.
  intros Hm Hb Hle Hs64 Hd64 Ht64 Hfl.
  assert (Hq64 : int64 q = true) by (apply (int64_between 0 (bstock b)); [done | done | lia]).
  assert (Hfault : ∀ k, (k < 7)%nat → head (drop k fl) ≠ Some true)
    by (intros k Hk; by apply (calm_head_drop 7)).
  unfold add_sale, mbind, M_bind.
  rewrite (prompt_loop_run ask_date bad_dates sdate (ret sdate)) by auto using ask_date_accept.
  rewrite <- (drop_0 fl).
  add_sale_checks Hfault Hb Hle.
  rewrite tail_drop, exec_ok
    by ((cbn [forallb]; by rewrite Hq64, Hd64, Ht64) || (apply Hfault; lia)).
  rewrite tail_drop, exec_ok by ((cbn [forallb]; by rewrite Hq64) || (apply Hfault; lia)).
  rewrite tail_drop, commit_ok by (apply Hfault; lia).
  rewrite tail_drop. unfold print. cbn [w_conn w_faults w_input w_output working committed connect].
  by rewrite <- !app_assoc.
Qed.

Lemma add_sale_store_error_run d fl out b i :
  is_Some (member d !! mid) → book d !! bid = Some b → q ≤ bstock b →
  int64 (bstock b) = true → int64 disc = true → int64 (bprice b * q - disc) = true →
  (i < 3)%nat → calm (4 + i) fl → fl !! (4 + i)%nat = Some true →
  add_sale (World (connect d) fl
              (bad_dates ++ sdate :: mid :: bid :: bad_qtys ++ qs :: bad_discs ++ ds :: rest)
              out) =
  (Ret tt,
   World (connect d) (drop (5 + i) fl) rest
         (out ++ rejections ask_date bad_dates ++ rejections ask_qty bad_qtys
              ++ rejections ask_discount bad_discs ++ [MsgError])).
Proof.
  intros Hm Hb Hle Hs64 Hd64 Ht64 Hi Hfl Hbang.
  assert (Hq64 : int64 q = true) by (apply (int64_between 0 (bstock b)); [done | done | lia]).
  assert (Hfault : ∀ k, (k < 4 + i)%nat → head (drop k fl) ≠ Some true)
    by (intros k Hk; by apply (calm_head_drop (4 + i))).
  assert (Hstop : head (drop (4 + i) fl) = Some true) by (by rewrite head_drop).
  unfold add_sale, mbind, M_bind.
  rewrite (prompt_loop_run ask_date bad_dates sdate (ret sdate)) by auto using ask_date_accept.
  rewrite <- (drop_0 fl).
  add_sale_checks Hfault Hb Hle.
  assert (Hparams : forallb int64 [q; disc; bprice b * q - disc] = true)
    by (cbn [forallb]; by rewrite Hq64, Hd64, Ht64).
  assert (Hparam : forallb int64 [q] = true) by (cbn [forallb]; by rewrite Hq64).
  rewrite tail_drop.
  destruct i as [|[|[|i]]]; [| | |lia]; cbn [Nat.add] in *.
  - rewrite exec_fault by done.
    unfold rollback, print. cbn. by rewrite tail_drop, <- !app_assoc.
  - rewrite exec_ok by (done || (apply Hfault; lia)).
    rewrite tail_drop, exec_fault by done.
    unfold rollback, print. cbn. by rewrite tail_drop, <- !app_assoc.
  - rewrite exec_ok by (done || (apply Hfault; lia)).
    rewrite tail_drop, exec_ok by (done || (apply Hfault; lia)).
    rewrite tail_drop, commit_fault by done.
    unfold rollback, print. cbn. by rewrite tail_drop, <- !app_assoc.
Qed.

Lemma add_sale_rejected_run c fl out :
  member (working c) !! mid = None ∨ book (working c) !! bid = None ∨
    (∃ b, book (working c) !! bid = Some b ∧ bstock b < q) →
  calm 3 fl →
  ∃ fl' m,
    add_sale (World c fl
                (bad_dates ++ sdate :: mid :: bid :: bad_qtys ++ qs :: bad_discs ++ ds :: rest)
                out) =
    (Ret tt,
     World c fl' rest
           (out ++ rejections ask_date bad_dates ++ rejections ask_qty bad_qtys
                ++ rejections ask_discount bad_discs ++ [m])) ∧
    (m = MsgInvalidIds ∨ ∃ stock, m = MsgStockShort stock).
Proof.
  intros Hcase Hfl.
  assert (Hfault : ∀ k, (k < 3)%nat → head (drop k fl) ≠ Some true)
    by (intros k Hk; by apply (calm_head_drop 3)).
  unfold add_sale, mbind, M_bind.
  rewrite (prompt_loop_run ask_date bad_dates sdate (ret sdate)) by auto using ask_date_accept.
  rewrite <- (drop_0 fl).
  cbv beta iota zeta delta [ret input set_input w_input w_conn w_faults w_output].
  unfold check_member_exists, check_book_exists, check_book_stock, mbind, M_bind.
  rewrite query_ok by (done || (apply Hfault; lia)).
  cbv beta iota.
  destruct (member (working c) !! mid) as [m0|] eqn:Hm.
  - rewrite bool_decide_eq_true_2 by eauto.
    rewrite tail_drop, query_ok by (done || (apply Hfault; lia)).
    cbv beta iota.
    destruct Hcase as [[=] | [Hb | (b & Hb & Hlt)]].
    + rewrite bool_decide_eq_false_2 by (rewrite Hb; by intros [? [=]]).
      through_prompts. cbn [negb]. unfold print. cbn.
      do 2 eexists. split; [by rewrite <- !app_assoc | by left].
    + rewrite bool_decide_eq_true_2 by (rewrite Hb; eauto).
      through_prompts. cbn [negb].
      rewrite tail_drop, query_ok by (done || (apply Hfault; lia)).
      cbv beta iota. rewrite Hb. cbn [fmap option_fmap option_map].
      rewrite (proj2 (Z.leb_gt q (bstock b)) Hlt).
      unfold ret at 1. cbv beta iota. cbn [fst snd negb]. unfold print. cbn.
      do 2 eexists. split; [by rewrite <- !app_assoc | right; eauto].
  - rewrite bool_decide_eq_false_2 by (by intros [? [=]]).
    cbv beta iota. through_prompts. cbn [negb]. unfold print. cbn.
    do 2 eexists. split; [by rewrite <- !app_assoc | by left].
Qed.

(** Whatever the store does during the checks, a create that the data
    rejects leaves the connection alone. *)
Lemma add_sale_rejected_conn c fl out :
  member (working c) !! mid = None ∨ book (working c) !! bid = None ∨
    (∃ b, book (working c) !! bid = Some b ∧ bstock b < q) →
  w_conn (add_sale (World c fl
            (bad_dates ++ sdate :: mid :: bid :: bad_qtys ++ qs :: bad_discs ++ ds :: rest)
            out)).2 = c.
Proof.
  intros Hcase.
  unfold add_sale, mbind, M_bind.
  rewrite (prompt_loop_run ask_date bad_dates sdate (ret sdate)) by auto using ask_date_accept.
  cbv beta iota zeta delta [ret input set_input w_input w_conn w_faults w_output].
  unfold check_member_exists, check_book_exists, check_book_stock, mbind, M_bind.
  rewrite query_run by done.
  case_bool_decide; [done|]. cbv beta iota.
  destruct (member (working c) !! mid) as [m0|] eqn:Hm.
  - rewrite bool_decide_eq_true_2 by eauto.
    rewrite query_run by done.
    case_bool_decide; [done|]. cbv beta iota.
    destruct Hcase as [[=] | [Hb | (b & Hb & Hlt)]].
    + rewrite bool_decide_eq_false_2 by (rewrite Hb; by intros [? [=]]).
      through_prompts. done.
    + rewrite bool_decide_eq_true_2 by (rewrite Hb; eauto).
      through_prompts. cbn [negb].
      rewrite query_run by done.
      case_bool_decide; [done|]. cbv beta iota. rewrite Hb. cbn [fmap option_fmap option_map].
      rewrite (proj2 (Z.leb_gt q (bstock b)) Hlt). done.
  - rewrite bool_decide_eq_false_2 by (by intros [? [=]]).
    cbv beta iota. through_prompts. done.
Qed.

End AddSale.

(** ** The menu loop never runs out of fuel *)

Section Fuel.

Ltac shorter :=
  intros; subst; repeat first [rewrite length_app | progress cbn [length]]; lia.

Lemma add_sale_shrinks c inp :
  wp add_sale c inp (λ _ _ inp', (length inp' ≤ length inp)%nat).
Proof.
  unfold add_sale.
  wp_step. apply wp_prompt_loop; [shorter|].
  intros bad l k inp1 -> _ [_ ->]%ask_date_leave. wp_step.
  wp_step. apply wp_input. destruct inp1 as [|mid inp2]; [shorter|].
  wp_step. apply wp_input. destruct inp2 as [|bid inp3]; [shorter|].
  match goal with |- wp (mbind ?k _) _ _ _ => set (rest := k) end.
  assert (Hrest : ∀ (v : bool) c1,
    wp (rest v) c1 inp3
       (λ _ _ inp', (length inp' ≤ length (bad ++ l :: mid :: bid :: inp3))%nat)).
  { intros v c1. subst rest. cbn beta.
    wp_step. apply wp_prompt_loop; [shorter|].
    intros ? ? ? inp4 -> _ (q & _ & _ & ->)%ask_qty_leave. wp_steps.
    apply wp_prompt_loop; [shorter|].
    intros ? ? ? inp5 -> _ (disc & _ & _ & ->)%ask_discount_leave. wp_steps.
    unfold check_book_stock, get_book_price.
    destruct v; cbn [negb]; [|wp_steps; shorter].
    wp_steps; try shorter.
    destruct (bstock <$> book (working c1) !! bid) as [st|]; [destruct (q <=? st)|];
      wp_steps; cbn [fst snd negb]; wp_steps; shorter. }
  unfold check_member_exists, check_book_exists.
  wp_steps; try shorter.
  destruct (bool_decide _); wp_steps; try shorter; apply Hrest.
Qed.

Lemma choice_loop_shrinks sales (sel : Z → M unit) c inp :
  (∀ idx c1 inp1, wp (sel idx) c1 inp1 (λ _ _ inp', (length inp' ≤ length inp1)%nat)) →
  wp (prompt_loop (ask_choice sales sel)) c inp
     (λ _ _ inp', (length inp' ≤ length inp)%nat).
Proof.
  intros Hsel. apply wp_prompt_loop; [shorter|].
  intros bad choice k inp1 -> _ [-> | (n & l & _ & _ & _ & ->)]%ask_choice_leave.
  - wp_steps. shorter.
  - intros fl out r w' Hrun. apply Hsel in Hrun. cbn in Hrun. shorter.
Qed.

Lemma update_sale_shrinks c inp :
  wp update_sale c inp (λ _ _ inp', (length inp' ≤ length inp)%nat).
Proof.
  unfold update_sale, get_sales_list, display_sales_list.
  wp_steps; try shorter.
  destruct (select_sales_list (working c)) as [|l0 sales0] eqn:Esales; [wp_steps; shorter|].
  wp_steps. apply choice_loop_shrinks. intros idx c1 inp1.
  unfold update_selected.
  destruct ((l0 :: sales0) !! Z.to_nat idx) as [l|]; wp_steps; try shorter.
  apply wp_prompt_loop; [intros; wp_steps; shorter|].
  intros ? ? ? inp2 -> _ (nd & _ & _ & ->)%ask_new_discount_leave. wp_steps.
  destruct (select_sale_with_price (l_sid l) (working c1)) as [[s p]|];
    wp_steps; shorter.
Qed.

Lemma delete_sale_shrinks c inp :
  wp delete_sale c inp (λ _ _ inp', (length inp' ≤ length inp)%nat).
Proof.
  unfold delete_sale, get_sales_list, display_sales_list.
  wp_steps; try shorter.
  destruct (select_sales_list (working c)) as [|l0 sales0] eqn:Esales; [wp_steps; shorter|].
  wp_steps. apply choice_loop_shrinks. intros idx c1 inp1.
  unfold delete_selected.
  destruct ((l0 :: sales0) !! Z.to_nat idx) as [l|]; wp_steps; shorter.
Qed.

Lemma print_sale_report_shrinks c inp :
  wp print_sale_report c inp (λ _ _ inp', (length inp' ≤ length inp)%nat).
Proof. unfold print_sale_report. wp_steps; shorter. Qed.

Lemma main_loop_fuel fuel w :
  (length (w_input w) < fuel)%nat → (main_loop fuel w).1 ≠ Ret false.
Proof.
  revert w. induction fuel as [|fuel IH]; intros [c fl inp out]; cbn [w_input]; [lia|].
  intros Hlen. cbn [main_loop]. unfold show_menu, mbind, M_bind, print, input.
  cbn [w_conn w_faults w_input w_output].
  destruct inp as [|choice inp]; [done|]. unfold set_input. cbn [w_conn w_faults w_input w_output].
  cbn [length] in Hlen.
  assert (Hop : ∀ (m : M unit) w0,
            wp m (w_conn w0) (w_input w0) (λ _ _ inp', (length inp' ≤ length (w_input w0))%nat) →
            (length (w_input w0) < fuel)%nat →
            (let (o, w') := m w0 in
             match o with
             | Ret _ => main_loop fuel w'
             | Raise e => (Raise e, w')
             end).1 ≠ Ret false).
  { intros m [c0 fl0 inp0 out0] Hm Hlt. cbn [w_conn w_input] in Hm, Hlt.
    destruct (m (World c0 fl0 inp0 out0)) as [[[]|e] w1] eqn:Hrun; [|done].
    apply Hm in Hrun. apply IH. lia. }
  repeat case_decide; try done;
    first [ apply IH; cbn [w_input]; lia
          | apply Hop; cbn [w_conn w_input]; try lia;
            auto using add_sale_shrinks, print_sale_report_shrinks, update_sale_shrinks,
              delete_sale_shrinks ].
Qed.

(** [main] gives its loop enough fuel. *)
Lemma main_total w : (main w).1 ≠ Ret false.
Proof.
  unfold main, with_conn.
  pose proof (main_loop_fuel (S (length (w_input w))) w ltac:(lia)) as Hfuel.
  destruct (main_loop (S (length (w_input w))) w) as [[b|e] w1]; cbn [fst] in *.
  - unfold mbind, M_bind. destruct (commit w1) as [[[]|e] w2]; [|done].
    cbn. congruence.
  - done.
Qed.

End Fuel.

(** * The claims *)

(** C1 (as amended).  A create whose input gets through the prompts with a
    syntactically valid date, an existing member id, an existing book
    id, a positive quantity and a non-negative discount, on a book whose
    stock is at least the quantity, where the discount and the total fit
    SQLite's 64-bit INTEGER (as the stored stock does) and the store
    raises no error: [add_sale] returns, the change is committed, the
    book's stock is down by exactly the quantity with every other book
    row as it was, and there is a new sale row, under a [sid] that was
    not in the table, whose total is price times quantity minus
    discount; the other sale rows and the members are as they were. *)
Theorem add_sale_creates d fl bad_dates sdate mid bid bad_qtys qs q bad_discs ds disc
    rest out b :
  Forall (rejected ask_date) bad_dates → validate_date sdate = true →
  Forall (rejected ask_qty) bad_qtys → py_int qs = Some q → 0 < q →
  Forall (rejected ask_discount) bad_discs → py_int ds = Some disc → 0 ≤ disc →
  is_Some (member d !! mid) → book d !! bid = Some b → q ≤ bstock b →
  int64 (bstock b) = true → int64 disc = true → int64 (bprice b * q - disc) = true →
  calm 7 fl →
  let w := World (connect d) fl
             (bad_dates ++ sdate :: mid :: bid :: bad_qtys ++ qs :: bad_discs ++ ds :: rest)
             out in
  let d' := working (w_conn (add_sale w).2) in
  (add_sale w).1 = Ret tt ∧
  committed (w_conn (add_sale w).2) = d' ∧
  book d' !! bid = Some (BookRow (btitle b) (bprice b) (bstock b - q)) ∧
  (∀ b', b' ≠ bid → book d' !! b' = book d !! b') ∧
  sale d !! next_sid d = None ∧
  sale d' !! next_sid d = Some (SaleRow sdate mid bid q disc (bprice b * q - disc)) ∧
  (∀ sid, sid ≠ next_sid d → sale d' !! sid = sale d !! sid) ∧
  member d' = member d.
Proof.
  intros Hbd Hdate Hbq Hqs Hq Hbdisc Hds Hdisc Hm Hb Hle Hs64 Hd64 Ht64 Hfl w d'.
  subst w d'.
  rewrite (add_sale_created_run bad_dates sdate mid bid bad_qtys qs q bad_discs ds disc rest
             Hbd Hdate Hbq Hqs Hq Hbdisc Hds Hdisc d fl out b) by done.
  cbn [fst snd w_conn working committed connect].
  split; [done|]. split; [done|].
  split; [by rewrite book_after_add, decide_True, Hb by done|].
  split; [intros b' Hne; by rewrite book_after_add, decide_False by done|].
  split; [apply next_sid_fresh|].
  split; [by rewrite sale_after_add, decide_True by done|].
  split; [intros sid Hne; by rewrite sale_after_add, decide_False by done|].
  done.
Qed.

Lemma add_sale_creates_witness :
  let w := World (connect seed_db) []
             ["2024-1-1"; "2024-01-15"; "M001"; "B001"; "x"; "0"; "2"; "-1"; "10"; "4"] [] in
  let d' := working (w_conn (add_sale w).2) in
  (add_sale w).1 = Ret tt ∧
  committed (w_conn (add_sale w).2) = d' ∧
  book d' !! "B001" = Some (BookRow "Python Programming" 600 (50 - 2)) ∧
  (∀ b', b' ≠ "B001" → book d' !! b' = book seed_db !! b') ∧
  sale seed_db !! 5 = None ∧
  sale d' !! 5 =
    Some (SaleRow "2024-01-15" "M001" "B001" 2 10 (600 * 2 - 10)) ∧
  (∀ sid, sid ≠ 5 → sale d' !! sid = sale seed_db !! sid) ∧
  member d' = member seed_db.
Proof.
  apply (add_sale_creates seed_db [] ["2024-1-1"] "2024-01-15" "M001" "B001"
           ["x"; "0"] "2" 2 ["-1"] "10" 10 ["4"] []
           (BookRow "Python Programming" 600 50));
    try (repeat constructor; eexists; vm_compute; reflexivity);
    try (vm_compute; reflexivity);
    try lia.
  cbn. lia.
Defined.

(** C1, the claim as stated, fails: every premise of the claim holds
    for a create of one copy of B001 with discount 2^63 on the seeded
    store, and [add_sale] ends in [OverflowError] with the stock at 50
    and no new sale row. *)
Lemma add_sale_overflow_counterexample :
  let w := World (connect seed_db) []
             ["2024-01-15"; "M001"; "B001"; "1"; "9223372036854775808"] [] in
  let d' := working (w_conn (add_sale w).2) in
  (validate_date "2024-01-15" = true ∧
   is_Some (member seed_db !! "M001") ∧
   (bstock <$> book seed_db !! "B001") = Some 50 ∧
   py_int "1" = Some 1 ∧ 0 < 1 ∧ 1 ≤ 50 ∧
   py_int "9223372036854775808" = Some (2 ^ 63) ∧ 0 ≤ 2 ^ 63) ∧
  (add_sale w).1 = Raise OverflowError ∧
  (bstock <$> book d' !! "B001") = Some 50 ∧
  (bstock <$> book d' !! "B001") ≠ Some (50 - 1) ∧
  sale d' = sale seed_db.
Proof.
  cbv zeta. repeat split; try (vm_compute; reflexivity); try (vm_compute; congruence).
  vm_compute. eauto.
Qed.

(** C2.  A create whose input gets through the prompts, with a member
    id or a book id that is not in its table, or with a book whose stock
    is below the quantity asked for: whatever the store does, the
    connection, hence the book table with every stock value and the
    sale table, committed and in the transaction, is exactly as before;
    and when the store answers the checks, the create is rejected:
    [add_sale] returns after the message of the rejection. *)
Theorem add_sale_rejected_unchanged c fl bad_dates sdate mid bid bad_qtys qs q
    bad_discs ds disc rest out :
  Forall (rejected ask_date) bad_dates → validate_date sdate = true →
  Forall (rejected ask_qty) bad_qtys → py_int qs = Some q → 0 < q →
  Forall (rejected ask_discount) bad_discs → py_int ds = Some disc → 0 ≤ disc →
  member (working c) !! mid = None ∨ book (working c) !! bid = None ∨
    (∃ b, book (working c) !! bid = Some b ∧ bstock b < q) →
  let w := World c fl
             (bad_dates ++ sdate :: mid :: bid :: bad_qtys ++ qs :: bad_discs ++ ds :: rest)
             out in
  w_conn (add_sale w).2 = c ∧
  (calm 3 fl →
   (add_sale w).1 = Ret tt ∧
   ∃ m, last (w_output (add_sale w).2) = Some m ∧
        (m = MsgInvalidIds ∨ ∃ stock, m = MsgStockShort stock)).
Proof.
  intros Hbd Hdate Hbq Hqs Hq Hbdisc Hds Hdisc Hcase w. subst w.
  split; [by eapply add_sale_rejected_conn|].
  intros Hfl.
  destruct (add_sale_rejected_run bad_dates sdate mid bid bad_qtys qs q bad_discs ds disc rest
              Hbd Hdate Hbq Hqs Hq Hbdisc Hds Hdisc c fl out Hcase Hfl)
    as (fl' & m & -> & Hm).
  cbn [fst snd w_conn w_output]. split; [done|].
  exists m. split; [|done]. by rewrite !app_assoc, last_snoc.
Qed.

Lemma add_sale_rejected_unchanged_witness :
  let w := World (connect seed_db) [] ["2024-01-15"; "M001"; "B003"; "21"; "0"] [] in
  w_conn (add_sale w).2 = connect seed_db ∧
  (calm 3 [] →
   (add_sale w).1 = Ret tt ∧
   ∃ m, last (w_output (add_sale w).2) = Some m ∧
        (m = MsgInvalidIds ∨ ∃ stock, m = MsgStockShort stock)).
Proof.
  apply (add_sale_rejected_unchanged (connect seed_db) [] [] "2024-01-15" "M001" "B003"
           [] "21" 21 [] "0" 0 [] []);
    try (repeat constructor; eexists; vm_compute; reflexivity);
    try (vm_compute; reflexivity);
    try lia.
  right. right. exists (BookRow "Machine Learning Guide" 1200 20).
  split; [vm_compute; reflexivity | cbn; lia].
Defined.

(** C3.  A create that has passed every check (input, member, book,
    stock, with values that SQLite can take) and whose final step meets
    a store error, at the insert of the sale row ([i = 0]), at the
    decrement of the stock ([i = 1]) or at the commit ([i = 2]):
    [add_sale] returns normally, its last message is the error message,
    and the connection is back at the state before, with nothing open:
    no new sale row, no change of stock. *)
Theorem add_sale_store_error_rolled_back d fl bad_dates sdate mid bid bad_qtys qs q
    bad_discs ds disc rest out b i :
  Forall (rejected ask_date) bad_dates → validate_date sdate = true →
  Forall (rejected ask_qty) bad_qtys → py_int qs = Some q → 0 < q →
  Forall (rejected ask_discount) bad_discs → py_int ds = Some disc → 0 ≤ disc →
  is_Some (member d !! mid) → book d !! bid = Some b → q ≤ bstock b →
  int64 (bstock b) = true → int64 disc = true → int64 (bprice b * q - disc) = true →
  (i < 3)%nat → calm (4 + i) fl → fl !! (4 + i)%nat = Some true →
  let w := World (connect d) fl
             (bad_dates ++ sdate :: mid :: bid :: bad_qtys ++ qs :: bad_discs ++ ds :: rest)
             out in
  (add_sale w).1 = Ret tt ∧
  w_conn (add_sale w).2 = connect d ∧
  last (w_output (add_sale w).2) = Some MsgError.
Proof.
  intros Hbd Hdate Hbq Hqs Hq Hbdisc Hds Hdisc Hm Hb Hle Hs64 Hd64 Ht64 Hi Hfl Hbang w.
  subst w.
  rewrite (add_sale_store_error_run bad_dates sdate mid bid bad_qtys qs q bad_discs ds disc
             rest Hbd Hdate Hbq Hqs Hq Hbdisc Hds Hdisc d fl out b i) by done.
  cbn [fst snd w_conn w_output]. split; [done|]. split; [done|].
  by rewrite !app_assoc, last_snoc.
Qed.

Lemma add_sale_store_error_rolled_back_witness :
  let w := World (connect seed_db) [false; false; false; false; false; true]
             ["2024-01-15"; "M001"; "B001"; "2"; "0"] [] in
  (add_sale w).1 = Ret tt ∧
  w_conn (add_sale w).2 = connect seed_db ∧
  last (w_output (add_sale w).2) = Some MsgError.
Proof.
  apply (add_sale_store_error_rolled_back seed_db [false; false; false; false; false; true]
           [] "2024-01-15" "M001" "B001" [] "2" 2 [] "0" 0 [] []
           (BookRow "Python Programming" 600 50) 1);
    try (repeat constructor; eexists; vm_compute; reflexivity);
    try (vm_compute; reflexivity);
    try lia.
  cbn. lia.
Defined.

(** C6.  The store error that [delete_sale] does not handle.  On the
    seeded file, with the store failing at the second call: in
    [delete_sale] that call is the [DELETE], and [sqlite3.Error] leaves
    the operation; the same choice in [update_sale], whose [try] has the
    handler, ends in a rollback, the error message and a normal return;
    through the menu the exception of [delete_sale] leaves [main] as
    well.  [print_sale_report] has no handler either. *)
Theorem delete_sale_store_error_escapes :
  let fl := [false; true] in
  (delete_sale (World (connect seed_db) fl ["2"] [])).1 = Raise SqliteError ∧
  ((update_sale (World (connect seed_db) fl ["2"; "0"] [])).1 = Ret tt ∧
   last (w_output (update_sale (World (connect seed_db) fl ["2"; "0"] [])).2)
     = Some MsgError) ∧
  (main (World (connect seed_db) fl ["4"; "2"; "5"] [])).1 = Raise SqliteError ∧
  (print_sale_report (World (connect seed_db) [true] [] [])).1 = Raise SqliteError.
Proof. by vm_compute. Qed.

(** C7.  The string the date check should refuse and accepts: a date
    followed by a newline passes [validate_date] and is not of the form
    [YYYY-MM-DD]. *)
Theorem validate_date_trailing_newline :
  validate_date ("2024-01-15" ++ NL) = true ∧
  ¬ iso_date_shape ("2024-01-15" ++ NL).
Proof.
  split; [reflexivity|]. intros H%iso_date_shape_length. discriminate H.
Qed.

(** C8.  In every reachable connection every book's stock is at least
    zero, in the transaction and in the file. *)
Theorem reachable_stock_nonneg c :
  reachable c → stock_ok (working c) ∧ stock_ok (committed c).
Proof. intros (d & -> & Hst & _)%reachable_inv. by split. Qed.

Lemma reachable_sold_out :
  reachable (w_conn (add_sale (World (connect seed_db) []
                                ["2024-01-15"; "M001"; "B001"; "50"; "0"] [])).2).
Proof.
  apply (reachable_ret (connect seed_db) OpAdd []
           ["2024-01-15"; "M001"; "B001"; "50"; "0"] []); [apply reachable_seed|].
  by vm_compute.
Defined.

Lemma reachable_stock_nonneg_witness :
  let c := w_conn (add_sale (World (connect seed_db) []
                              ["2024-01-15"; "M001"; "B001"; "50"; "0"] [])).2 in
  stock_ok (working c) ∧ stock_ok (committed c).
Proof. apply reachable_stock_nonneg. exact reachable_sold_out. Defined.

(** C9.  In every reachable connection every sale row has a quantity
    above zero and a discount of at least zero, in the transaction and
    in the file. *)
Theorem reachable_sales_ok c :
  reachable c → sales_ok (working c) ∧ sales_ok (committed c).
Proof. intros (d & -> & _ & Hsa & _)%reachable_inv. by split. Qed.

Lemma reachable_sales_ok_witness :
  let c := w_conn (add_sale (World (connect seed_db) []
                              ["2024-01-15"; "M001"; "B001"; "50"; "0"] [])).2 in
  sales_ok (working c) ∧ sales_ok (committed c).
Proof. apply reachable_sales_ok. exact reachable_sold_out. Defined.

(** C10.  Where every sale's book is in the book table, the joined
    lookup of [update_sale] finds a row for every sale of the list it
    selects from; every reachable connection is of that kind; and so,
    from a reachable connection, no run of [update_sale] ends in the
    [TypeError] (or the [IndexError]) of a subscript on a missing
    result. *)
Theorem update_sale_lookup_found :
  (∀ d l, refs_ok d → l ∈ select_sales_list d →
          is_Some (select_sale_with_price (l_sid l) d)) ∧
  (∀ c, reachable c → refs_ok (working c)) ∧
  (∀ c fl inp out, reachable c →
     (update_sale (World c fl inp out)).1 ≠ Raise TypeError ∧
     (update_sale (World c fl inp out)).1 ≠ Raise IndexError).
Proof.
  split; [intros d l; apply select_sale_with_price_found|].
  split; [by intros c (d & -> & _ & _ & Hre)%reachable_inv|].
  intros c fl inp out (d & -> & _ & _ & Hre)%reachable_inv.
  destruct (update_sale (World (connect d) fl inp out)) as [r w'] eqn:Hrun.
  apply update_sale_effect in Hrun as (_ & Hidx & Hty). cbn. auto.
Qed.

Lemma update_sale_lookup_found_witness :
  let c := w_conn (add_sale (World (connect seed_db) []
                              ["2024-01-15"; "M001"; "B001"; "50"; "0"] [])).2 in
  refs_ok (working c) ∧
  is_Some (select_sale_with_price 5 (working c)) ∧
  (update_sale (World c [] ["5"; "7"] [])).1 ≠ Raise TypeError.
Proof.
  destruct update_sale_lookup_found as (Hfound & Hrefs & Hsafe).
  split; [exact (Hrefs _ reachable_sold_out)|].
  split.
  - apply (Hfound _ (Listing 5 "2024-01-15" "Alice") (Hrefs _ reachable_sold_out)).
    vm_compute. repeat constructor.
  - apply (Hsafe _ [] ["5"; "7"] [] reachable_sold_out).
Defined.

(** * Further properties *)

(** ** The date check on a line of input *)

Section DateOnLine.

Lemma byte_inj c c' : byte c = byte c' → c = c'.
Proof.
  unfold byte. intros H%Nat2Z.inj.
  rewrite <- (ascii_nat_embedding c), <- (ascii_nat_embedding c'). by rewrite H.
Qed.

Lemma digit_0_9_byte c : digit_0_9 c = is_ascii_digit (byte c).
Proof.
  unfold digit_0_9, is_ascii_digit, byte.
  rewrite eq_iff_eq_true, !andb_true_iff, !Nat.leb_le, !Z.leb_le. lia.
Qed.

Lemma find_all_false {X : Type} (f : X → bool) xs :
  Forall (λ x, f x = false) xs → List.find f xs = None.
Proof. induction 1 as [|x xs Hx _ IH]; cbn; [done|]. by rewrite Hx. Qed.

Lemma find_cons {X : Type} (f : X → bool) x xs :
  List.find f (x :: xs) = if f x then Some x else List.find f xs.
Proof. reflexivity. Qed.

(** Below 128 the decimal digits are the ten ASCII ones. *)
Lemma is_decimal_ascii ch : ch < 128 → is_decimal ch = is_ascii_digit ch.
Proof.
  intros Hch. unfold is_decimal, decimal, is_ascii_digit, decimal_zeros.
  rewrite find_cons.
  destruct ((48 <=? ch) && (ch <? 48 + 10)) eqn:E.
  - cbn [fmap option_fmap option_map].
    apply andb_true_iff in E as [E1 E2%Z.ltb_lt]. rewrite E1. cbn [andb].
    symmetry. apply Z.leb_le. lia.
  - rewrite find_all_false.
    + cbn [fmap option_fmap option_map]. symmetry.
      apply andb_false_iff in E as [E | E%Z.ltb_ge]; [by rewrite E|].
      apply andb_false_iff. right. apply Z.leb_gt. lia.
    + repeat constructor; apply andb_false_iff; left; apply Z.leb_gt; lia.
Qed.

Lemma code_points_ascii s :
  Forall (λ c, byte c < 128) (list_ascii_of_string s) →
  code_points s = Some (byte <$> list_ascii_of_string s).
Proof.
  induction s as [|c s IH]; intros H; [done|].
  cbn [list_ascii_of_string] in H. apply Forall_cons in H as [Hc H].
  cbn [code_points list_ascii_of_string fmap list_fmap].
  rewrite (proj2 (Z.ltb_lt _ _) Hc), IH by done. done.
Qed.

Lemma digit_0_9_decimal c : digit_0_9 c = true → byte c < 128 ∧ is_decimal (byte c) = true.
Proof.
  rewrite digit_0_9_byte. intros H.
  assert (byte c < 128).
  { unfold is_ascii_digit in H. apply andb_true_iff in H as [_ H%Z.leb_le]. lia. }
  split; [done|]. by rewrite is_decimal_ascii.
Qed.

Lemma iso_date_points s :
  iso_date_shape s →
  Forall (λ c, byte c < 128) (list_ascii_of_string s) ∧
  date_points (byte <$> list_ascii_of_string s).
Proof.
  intros (y1 & y2 & y3 & y4 & m1 & m2 & d1 & d2 & Hd & ->).
  repeat match goal with
         | H : Forall _ (_ :: _) |- _ => apply Forall_cons in H as [?%digit_0_9_decimal H]
         end.
  cbn [list_ascii_of_string fmap list_fmap]. split.
  - repeat constructor; try tauto; by vm_compute.
  - exists (byte y1), (byte y2), (byte y3), (byte y4), (byte m1), (byte m2),
           (byte d1), (byte d2).
    split; [|done]. repeat constructor; tauto.
Qed.

Lemma date_points_iso s :
  Forall (λ c, byte c < 128) (list_ascii_of_string s) →
  date_points (byte <$> list_ascii_of_string s) → iso_date_shape s.
Proof.
  intros Hascii (y1 & y2 & y3 & y4 & m1 & m2 & d1 & d2 & Hd & Hl).
  rewrite <- (string_of_list_ascii_of_string s).
  destruct (list_ascii_of_string s)
    as [|c1 [|c2 [|c3 [|c4 [|c5 [|c6 [|c7 [|c8 [|c9 [|c10 [|c11 la]]]]]]]]]]];
    try discriminate Hl.
  cbn [fmap list_fmap] in Hl.
  injection Hl as <- <- <- <- Hc5 <- <- Hc8 <- <-.
  apply byte_inj in Hc5, Hc8. subst c5 c8.
  exists c1, c2, c3, c4, c6, c7, c9, c10. split; [|done].
  repeat match goal with
         | H : Forall _ (_ :: _) |- _ => apply Forall_cons in H as [? H]
         end.
  repeat constructor; rewrite digit_0_9_byte, <- is_decimal_ascii; done.
Qed.

End DateOnLine.

(** X1.  What [validate_date] accepts, exactly: the texts of ten
    characters that have [-] at places 4 and 7 and a decimal digit, of
    any script, at the eight others; and such a text followed by one
    newline. *)
Theorem validate_date_iff s :
  validate_date s = true ↔
  ∃ l, code_points s = Some l ∧
       (date_points l ∨ ∃ l0 : list Z, date_points l0 ∧ l = (l0 ++ [byte LF])%list).
Proof. exact (validate_date_accepts s). Qed.

(** X2.  On an ASCII string without a newline, [validate_date] is true
    exactly for the format [YYYY-MM-DD] with the digits 0 to 9. *)
Theorem validate_date_on_line s :
  Forall (λ c, byte c < 128) (list_ascii_of_string s) →
  LF ∉ list_ascii_of_string s →
  validate_date s = true ↔ iso_date_shape s.
Proof.
  intros Hascii Hnl. rewrite validate_date_accepts, (code_points_ascii s Hascii). split.
  - intros (l & [= <-] & [Hd | (l0 & _ & Hl)]); [by apply date_points_iso|].
    destruct Hnl.
    assert (Hin : byte LF ∈ byte <$> list_ascii_of_string s).
    { rewrite Hl. apply elem_of_app. right. apply elem_of_cons. by left. }
    apply list_elem_of_fmap in Hin as (c & Hc%byte_inj & Hin). by subst c.
  - intros Hiso. eexists. split; [done|]. left. by apply iso_date_points.
Qed.

Lemma validate_date_on_line_witness :
  validate_date "2024-13-40" = true ↔ iso_date_shape "2024-13-40".
Proof.
  apply validate_date_on_line.
  - repeat constructor; by vm_compute.
  - cbn [list_ascii_of_string]. unfold LF.
    intros H. repeat (apply elem_of_cons in H as [H|H]; [discriminate H|]).
    by apply elem_of_nil in H.
Defined.

(** ** What no operation does to the catalogue and the members *)

Section Ledger.

Implicit Types (d : db).

Lemma catalogue_kept_refl d : catalogue_kept d d.
Proof. intros b. by destruct (book d !! b). Qed.

Lemma catalogue_kept_same_books d d' : book d' = book d → catalogue_kept d d'.
Proof. intros Hb b. rewrite Hb. by destruct (book d !! b). Qed.

Lemma catalogue_kept_trans d0 d1 d2 :
  catalogue_kept d0 d1 → catalogue_kept d1 d2 → catalogue_kept d0 d2.
Proof.
  intros H1 H2 b. specialize (H1 b). specialize (H2 b).
  destruct (book d0 !! b), (book d1 !! b), (book d2 !! b); try done.
  destruct H1 as (Ht1 & Hp1 & ?), H2 as (Ht2 & Hp2 & ?).
  repeat split; [congruence | congruence | lia].
Qed.

Lemma catalogue_kept_add d b q r :
  0 < q → catalogue_kept d (decrement_stock b q (insert_sale r d)).
Proof.
  intros Hq b'. rewrite book_after_add. case_decide as E.
  - subst b'. destruct (book d !! b); cbn; [|done]. repeat split; lia.
  - by destruct (book d !! b').
Qed.

Lemma next_sid_above d : sale_seq d < next_sid d.
Proof. unfold next_sid. lia. Qed.

Lemma next_sid_positive d : 1 ≤ next_sid d.
Proof.
  unfold next_sid. assert (0 ≤ max_sid (sale d)); [|lia].
  unfold max_sid.
  apply (map_fold_weak_ind (λ acc (_ : gmap Z sale_row), 0 ≤ acc)); [done|].
  intros. lia.
Qed.

Lemma members_ok_add d b q r :
  members_ok d → is_Some (member d !! mid r) →
  members_ok (decrement_stock b q (insert_sale r d)).
Proof.
  intros Hd Hr sid s. rewrite sale_after_add.
  case_decide; [by intros [= <-] | apply Hd].
Qed.

Lemma totals_ok_add d q r x :
  totals_ok d → book d !! bid r = Some x → stotal r = bprice x * sqty r - sdiscount r →
  totals_ok (decrement_stock (bid r) q (insert_sale r d)).
Proof.
  intros Hd Hx Hr sid s. rewrite sale_after_add. intros Hs.
  assert (∃ y, book d !! bid s = Some y ∧ stotal s = bprice y * sqty s - sdiscount s)
    as (y & Hy & Htot).
  { case_decide; [injection Hs as <-; eauto | by eapply Hd]. }
  clear Hs. rewrite book_after_add. case_decide as E.
  - rewrite E in Hy. rewrite Hy. cbn. eauto.
  - eauto.
Qed.

Lemma sids_ok_add d b q r : sids_ok d → sids_ok (decrement_stock b q (insert_sale r d)).
Proof.
  intros Hd sid s. rewrite sale_after_add. cbn [sale_seq decrement_stock insert_sale].
  case_decide as E.
  - intros _. subst sid. pose proof (next_sid_positive d). lia.
  - intros Hs%Hd. pose proof (next_sid_above d). lia.
Qed.

Lemma members_ok_set_discount d sid nd tot :
  members_ok d → members_ok (set_discount sid nd tot d).
Proof.
  intros Hd sid' s. rewrite sale_after_set_discount.
  case_decide; [|apply Hd].
  destruct (sale d !! sid) as [r|] eqn:Hr; [|done].
  intros [= <-]. cbn. by eapply Hd.
Qed.

Lemma totals_ok_set_discount d sid nd s x :
  totals_ok d → sale d !! sid = Some s → book d !! bid s = Some x →
  totals_ok (set_discount sid nd (bprice x * sqty s - nd) d).
Proof.
  intros Hd Hs Hx sid' s'. rewrite sale_after_set_discount, Hs.
  case_decide; [|apply Hd]. intros [= <-]. cbn. eauto.
Qed.

Lemma sids_ok_set_discount d sid nd tot : sids_ok d → sids_ok (set_discount sid nd tot d).
Proof.
  intros Hd sid' s. rewrite sale_after_set_discount.
  case_decide; [|apply Hd].
  destruct (sale d !! sid) as [r|] eqn:Hr; [|done].
  intros _. subst sid'. by eapply Hd.
Qed.

Lemma members_ok_delete d sid : members_ok d → members_ok (delete_row sid d).
Proof.
  intros Hd sid' s. rewrite sale_after_delete. case_decide; [done | apply Hd].
Qed.

Lemma totals_ok_delete d sid : totals_ok d → totals_ok (delete_row sid d).
Proof.
  intros Hd sid' s. rewrite sale_after_delete. case_decide; [done | apply Hd].
Qed.

Lemma sids_ok_delete d sid : sids_ok d → sids_ok (delete_row sid d).
Proof.
  intros Hd sid' s. rewrite sale_after_delete. case_decide; [done | apply Hd].
Qed.

Lemma seed_rows sid s :
  sale seed_db !! sid = Some s →
  (sid, s) ∈ [(1, SaleRow "2024-01-15" "M001" "B001" 2 100 1100);
              (2, SaleRow "2024-01-16" "M002" "B002" 1 50 750);
              (3, SaleRow "2024-01-17" "M001" "B003" 3 200 3400);
              (4, SaleRow "2024-01-18" "M003" "B001" 1 0 600)].
Proof. apply elem_of_list_to_map_2. Qed.

Lemma members_ok_seed : members_ok seed_db.
Proof.
  intros sid s Hs%seed_rows.
  repeat (apply elem_of_cons in Hs as [[= -> ->] | Hs]; [by vm_compute; eauto|]).
  by apply elem_of_nil in Hs.
Qed.

Lemma totals_ok_seed : totals_ok seed_db.
Proof.
  intros sid s Hs%seed_rows.
  repeat (apply elem_of_cons in Hs as [[= -> ->] | Hs];
          [eexists; split; [vm_compute; reflexivity | reflexivity]|]).
  by apply elem_of_nil in Hs.
Qed.

Lemma sids_ok_seed : sids_ok seed_db.
Proof.
  intros sid s Hs%seed_rows.
  repeat (apply elem_of_cons in Hs as [[= -> ->] | Hs]; [cbn; lia|]).
  by apply elem_of_nil in Hs.
Qed.

End Ledger.

Lemma run_op_ledger o d fl inp out :
  let c' := w_conn (run_op o (World (connect d) fl inp out)).2 in
  (member (working c') = member d ∧ member (committed c') = member d) ∧
  (catalogue_kept d (working c') ∧ catalogue_kept d (committed c')) ∧
  (sale_seq d ≤ sale_seq (working c') ∧ sale_seq d ≤ sale_seq (committed c')).
Proof.
  intros c'. subst c'.
  destruct (run_op o (World (connect d) fl inp out)) as [r w'] eqn:Hrun. cbn [snd].
  assert (Hsame : w_conn w' = connect d →
    (member (working (w_conn w')) = member d ∧ member (committed (w_conn w')) = member d) ∧
    (catalogue_kept d (working (w_conn w')) ∧ catalogue_kept d (committed (w_conn w'))) ∧
    (sale_seq d ≤ sale_seq (working (w_conn w')) ∧
     sale_seq d ≤ sale_seq (committed (w_conn w')))).
  { intros ->. cbn. repeat split; auto using catalogue_kept_refl with lia. }
  destruct o; cbn [run_op] in Hrun.
  - apply add_sale_effect in Hrun as [Hc | Hadd]; [by apply Hsame|].
    destruct Hadd as (? & sdate & mid & bid & ? & ? & q & ? & ? & disc & b & _ & _ & _
                      & _ & _ & Hq & _ & _ & _ & _ & _ & _ & _ & ->).
    cbn [working committed connect].
    pose proof (next_sid_above d).
    repeat split; try done; try (by apply catalogue_kept_add); cbn; lia.
  - apply print_sale_report_effect in Hrun. by apply Hsame.
  - apply update_sale_effect in Hrun as [[Hc | Hupd] _]; [by apply Hsame|].
    destruct Hupd as (? & ? & ? & l & ? & ? & nd & s & b & _ & _ & _ & _ & _ & _ & _
                      & _ & _ & _ & _ & ->).
    cbn [working committed connect].
    repeat split; try done; try (by apply catalogue_kept_same_books); cbn; lia.
  - apply delete_sale_effect in Hrun as [[Hc | Hdel] _]; [by apply Hsame|].
    destruct Hdel as (? & ? & ? & l & s & _ & _ & _ & _ & _ & _ & [[_ ->] | [_ ->]]);
      cbn [working committed connect];
      repeat split; try done; try (by apply catalogue_kept_same_books); cbn; lia.
Qed.

(** X3.  Whatever an operation does, from a connection with no open
    transaction: the member table is as before, the books are the same
    with the same titles and prices and no stock above what it was, and
    the [sid] counter has not gone down; in the transaction and in the
    file. *)
Theorem run_op_keeps_catalogue o d fl inp out :
  let c' := w_conn (run_op o (World (connect d) fl inp out)).2 in
  (member (working c') = member d ∧ member (committed c') = member d) ∧
  (catalogue_kept d (working c') ∧ catalogue_kept d (committed c')) ∧
  (sale_seq d ≤ sale_seq (working c') ∧ sale_seq d ≤ sale_seq (committed c')).
Proof. exact (run_op_ledger o d fl inp out). Qed.

Section ReachableLedger.

Lemma reachable_ledger c :
  reachable c →
  ∃ d, c = connect d ∧ member d = member seed_db ∧ catalogue_kept seed_db d ∧
       0 ≤ sale_seq d ∧ members_ok d ∧ totals_ok d ∧ sids_ok d.
Proof.
  induction 1 as [| c o fl inp out w' _ (d & -> & Hme & Hca & Hse & Hmo & Hto & Hsi) Hrun
                  | c o fl inp out e w' _ (d & -> & Hme & Hca & Hse & Hmo & Hto & Hsi) Hrun
                  | c _ (d & -> & Hinv)].
  - exists seed_db.
    split_and!; auto using catalogue_kept_refl, members_ok_seed, totals_ok_seed,
      sids_ok_seed. done.
  - pose proof (run_op_ledger o d fl inp out) as Hkeep.
    cbv zeta in Hkeep. rewrite Hrun in Hkeep. cbn [snd] in Hkeep.
    destruct Hkeep as ((Hme' & _) & (Hca' & _) & (Hse' & _)).
    assert (Hbase : ∀ d', w_conn w' = connect d' → members_ok d' → totals_ok d' →
              sids_ok d' →
              ∃ d0, w_conn w' = connect d0 ∧ member d0 = member seed_db ∧
                    catalogue_kept seed_db d0 ∧ 0 ≤ sale_seq d0 ∧
                    members_ok d0 ∧ totals_ok d0 ∧ sids_ok d0).
    { intros d' Hd' ? ? ?. exists d'. rewrite Hd' in Hme', Hca', Hse'. cbn in Hme', Hca', Hse'.
      split_and!; try done; [congruence | by eapply catalogue_kept_trans | lia]. }
    destruct o; cbn [run_op] in Hrun.
    + apply add_sale_effect in Hrun as [Hc | Hadd]; [by eapply Hbase|].
      destruct Hadd as (? & sdate & mid & bid & ? & ? & q & ? & ? & disc & b & _ & _ & _
                        & _ & _ & Hq & _ & _ & Hdisc & Hm & Hb & Hle & _ & Hc).
      eapply Hbase; [exact Hc | | |].
      * by apply members_ok_add.
      * by apply (totals_ok_add d q (SaleRow sdate mid bid q disc _) b).
      * by apply sids_ok_add.
    + apply print_sale_report_effect in Hrun. by eapply Hbase.
    + apply update_sale_effect in Hrun as [[Hc | Hupd] _]; [by eapply Hbase|].
      destruct Hupd as (? & ? & ? & l & ? & ? & nd & s & b & _ & _ & _ & _ & _ & _ & _
                        & _ & Hs & Hb & _ & Hc).
      eapply Hbase; [exact Hc | | |].
      * by apply members_ok_set_discount.
      * by apply totals_ok_set_discount.
      * by apply sids_ok_set_discount.
    + apply delete_sale_effect in Hrun as [[Hc | Hdel] _]; [by eapply Hbase|].
      destruct Hdel as (? & ? & ? & l & s & _ & _ & _ & _ & _ & _ & [[_ Hc] | [[=] _]]).
      eapply Hbase; [exact Hc | | |].
      * by apply members_ok_delete.
      * by apply totals_ok_delete.
      * by apply sids_ok_delete.
  - exists d. split; [|done].
    destruct o; cbn [run_op] in Hrun.
    + apply add_sale_effect in Hrun as [-> | Hadd]; [done|].
      destruct Hadd as (? & ? & ? & ? & ? & ? & ? & ? & ? & ? & ? & _ & _ & _
                        & _ & _ & _ & _ & _ & _ & _ & _ & _ & [=] & _).
    + by apply print_sale_report_effect in Hrun as ->.
    + apply update_sale_effect in Hrun as [[-> | Hupd] _]; [done|].
      destruct Hupd as (? & ? & ? & ? & ? & ? & ? & ? & ? & _ & _ & _ & _ & _ & _ & _
                        & _ & _ & _ & [=] & _).
    + apply delete_sale_effect in Hrun as [[-> | Hdel] _]; [done|].
      by destruct Hdel as (? & ? & ? & l & s & _ & _ & _ & _ & _ & _ & [[[=] _] | [_ ->]]).
  - exists d. done.
Qed.

Lemma max_sid_le (t : gmap Z sale_row) bound :
  0 ≤ bound → (∀ k v, t !! k = Some v → k ≤ bound) → max_sid t ≤ bound.
Proof.
  intros Hb. unfold max_sid.
  apply (map_fold_weak_ind
           (λ acc (m : gmap Z sale_row), (∀ k v, m !! k = Some v → k ≤ bound) → acc ≤ bound));
    [done|].
  intros i x m r Hi IH Hall.
  assert (i ≤ bound) by (apply (Hall i x); by rewrite lookup_insert_eq).
  assert (r ≤ bound); [|lia].
  apply IH. intros k v Hk. apply (Hall k v).
  rewrite lookup_insert_ne; [done|]. intros <-. congruence.
Qed.

Lemma select_sales_list_complete d sid s m :
  sale d !! sid = Some s → member d !! mid s = Some m →
  Listing sid (sdate s) (mname m) ∈ select_sales_list d.
Proof.
  intros Hs Hm. unfold select_sales_list. apply list_elem_of_omap.
  exists (sid, s). split; [by apply sales_by_sid_elem|]. cbn. by rewrite Hm.
Qed.

Lemma select_report_complete d sid s m b :
  sale d !! sid = Some s → member d !! mid s = Some m → book d !! bid s = Some b →
  ReportRow sid (sdate s) (mname m) (btitle b) (bprice b) (sqty s) (sdiscount s) (stotal s)
    ∈ select_report d.
Proof.
  intros Hs Hm Hb. unfold select_report. apply list_elem_of_omap.
  exists (sid, s). split; [by apply sales_by_sid_elem|]. cbn. by rewrite Hm, Hb.
Qed.

Lemma select_report_elem d r :
  r ∈ select_report d →
  ∃ s m b, sale d !! r_sid r = Some s ∧ member d !! mid s = Some m ∧
           book d !! bid s = Some b ∧
           r = ReportRow (r_sid r) (sdate s) (mname m) (btitle b) (bprice b)
                         (sqty s) (sdiscount s) (stotal s).
Proof.
  unfold select_report. rewrite list_elem_of_omap.
  intros ([k s] & Hin%sales_by_sid_elem & Hr). cbn in Hin, Hr.
  destruct (member d !! mid s) as [m|] eqn:Hm; [|done].
  destruct (book d !! bid s) as [b|] eqn:Hb; [|done].
  cbn in Hr. injection Hr as <-. exists s, m, b. done.
Qed.

End ReachableLedger.

(** X4.  In every reachable connection the member table is the seeded
    one, and the books are the seeded ones with their titles and prices
    and a stock that is at most the seeded stock: nothing ever puts
    stock back, deleting a sale included. *)
Theorem reachable_catalogue c :
  reachable c →
  member (working c) = member seed_db ∧ catalogue_kept seed_db (working c).
Proof. intros (d & -> & Hme & Hca & _)%reachable_ledger. by split. Qed.

Lemma reachable_catalogue_witness :
  let c := w_conn (add_sale (World (connect seed_db) []
                              ["2024-01-15"; "M001"; "B001"; "50"; "0"] [])).2 in
  member (working c) = member seed_db ∧ catalogue_kept seed_db (working c).
Proof. apply reachable_catalogue. exact reachable_sold_out. Defined.

(** X5.  In every reachable connection every sale's stored total is its
    book's price times its quantity minus its discount. *)
Theorem reachable_totals_ok c : reachable c → totals_ok (working c).
Proof. by intros (d & -> & _ & _ & _ & _ & Hto & _)%reachable_ledger. Qed.

Lemma reachable_totals_ok_witness :
  totals_ok (working (w_conn (add_sale (World (connect seed_db) []
                                ["2024-01-15"; "M001"; "B001"; "50"; "0"] [])).2)).
Proof. apply reachable_totals_ok. exact reachable_sold_out. Defined.

(** X6.  In every reachable connection every [sid] in use lies between 1
    and the counter, and the next sale gets the counter plus one: the
    number of a deleted sale is not given out again. *)
Theorem reachable_sids_ok c :
  reachable c →
  sids_ok (working c) ∧ next_sid (working c) = sale_seq (working c) + 1.
Proof.
  intros (d & -> & _ & _ & Hse & _ & _ & Hsi)%reachable_ledger. cbn.
  split; [done|]. unfold next_sid.
  assert (max_sid (sale d) ≤ sale_seq d); [|lia].
  apply max_sid_le; [done|]. intros k v Hk. by apply (Hsi k v).
Qed.

Lemma reachable_sids_ok_witness :
  let c := w_conn (delete_sale (World (connect seed_db) [] ["4"] [])).2 in
  sids_ok (working c) ∧ next_sid (working c) = sale_seq (working c) + 1.
Proof.
  apply reachable_sids_ok.
  apply (reachable_ret (connect seed_db) OpDelete [] ["4"] []); [apply reachable_seed|].
  by vm_compute.
Defined.

(** X7.  In every reachable connection the joins lose no sale: each
    sale is in the list that [update_sale] and [delete_sale] select
    from, and in the rows of the report. *)
Theorem reachable_every_sale_listed c sid s :
  reachable c → sale (working c) !! sid = Some s →
  (∃ l, l ∈ select_sales_list (working c) ∧ l_sid l = sid ∧ l_sdate l = sdate s) ∧
  (∃ r, r ∈ select_report (working c) ∧ r_sid r = sid ∧ r_stotal r = stotal s).
Proof.
  intros Hreach Hs.
  destruct (reachable_inv c Hreach) as (d & -> & _ & _ & Hre).
  destruct (reachable_ledger _ Hreach) as (d' & [= <-] & _ & _ & _ & Hmo & _).
  cbn [working connect] in *.
  destruct (Hmo _ _ Hs) as [m Hm]. destruct (Hre _ _ Hs) as [b Hb]. split.
  - eexists. split; [by eapply select_sales_list_complete|]. done.
  - eexists. split; [by eapply select_report_complete|]. done.
Qed.

Lemma reachable_every_sale_listed_witness :
  let c := w_conn (add_sale (World (connect seed_db) []
                              ["2024-01-15"; "M001"; "B001"; "50"; "0"] [])).2 in
  (∃ l, l ∈ select_sales_list (working c) ∧ l_sid l = 5 ∧ l_sdate l = "2024-01-15") ∧
  (∃ r, r ∈ select_report (working c) ∧ r_sid r = 5 ∧ r_stotal r = 30000).
Proof.
  apply (reachable_every_sale_listed _ 5 (SaleRow "2024-01-15" "M001" "B001" 50 0 30000)
           reachable_sold_out).
  by vm_compute.
Defined.

(** ** The order of the listings *)

Section Listings.

Lemma strongly_sorted_strict (xs : list (Z * sale_row)) :
  StronglySorted sid_le xs → NoDup xs.*1 →
  StronglySorted (λ x y, x.1 < y.1) xs.
Proof.
  induction 1 as [|x xs Hsorted IH Hall]; cbn [fmap list_fmap]; [constructor|].
  intros [Hx Hnd]%NoDup_cons. constructor; [by apply IH|].
  rewrite Forall_forall in Hall. apply Forall_forall. intros y Hy.
  specialize (Hall y Hy). unfold sid_le in Hall.
  assert (x.1 ≠ y.1); [|lia].
  intros Heq. apply Hx. rewrite Heq. by apply list_elem_of_fmap_2.
Qed.

Lemma strongly_sorted_omap {X Y : Type} (R : relation X) (R' : relation Y)
    (f : X → option Y) xs :
  (∀ x y a b, f x = Some a → f y = Some b → R x y → R' a b) →
  StronglySorted R xs → StronglySorted R' (omap f xs).
Proof.
  intros Hf. induction 1 as [|x xs Hsorted IH Hall]; cbn [omap list_omap]; [constructor|].
  destruct (f x) as [a|] eqn:Hx; [|exact IH].
  constructor; [exact IH|].
  rewrite Forall_forall in Hall. apply Forall_forall.
  intros b (y & Hy & Hb)%list_elem_of_omap.
  by apply (Hf x y a b Hx Hb), Hall.
Qed.

Lemma sales_by_sid_sorted d : StronglySorted (λ x y, x.1 < y.1) (sales_by_sid d).
Proof.
  assert (Transitive sid_le) by (intros x y z; unfold sid_le; lia).
  assert (Total sid_le) by (intros x y; unfold sid_le; lia).
  apply strongly_sorted_strict.
  - unfold sales_by_sid. by apply StronglySorted_merge_sort.
  - unfold sales_by_sid. rewrite merge_sort_Permutation. apply NoDup_fst_map_to_list.
Qed.

End Listings.

(** X8.  The list offered for update and delete, and the rows of the
    report, are in strictly increasing order of [sid]: no sale is there
    twice, and two numbers of the list never select the same sale. *)
Theorem listings_sorted d :
  StronglySorted (λ a b, l_sid a < l_sid b) (select_sales_list d) ∧
  StronglySorted (λ a b, r_sid a < r_sid b) (select_report d).
Proof.
  split.
  - unfold select_sales_list.
    apply (strongly_sorted_omap (λ x y, x.1 < y.1)); [|apply sales_by_sid_sorted].
    intros x y a b Ha Hb Hlt.
    destruct (member d !! mid x.2); [|done]. destruct (member d !! mid y.2); [|done].
    cbn in Ha, Hb. by injection Ha as <-; injection Hb as <-.
  - unfold select_report.
    apply (strongly_sorted_omap (λ x y, x.1 < y.1)); [|apply sales_by_sid_sorted].
    intros x y a b Ha Hb Hlt.
    destruct (member d !! mid x.2); [|done]. destruct (member d !! mid y.2); [|done].
    cbn in Ha, Hb.
    destruct (book d !! bid x.2); [|done]. destruct (book d !! bid y.2); [|done].
    cbn in Ha, Hb. by injection Ha as <-; injection Hb as <-.
Qed.

(** ** The report and the selection list, run *)

Section Views.

Implicit Types (c : conn) (fl : list bool) (inp : list string) (out : list msg).

Lemma print_each_run {X : Type} (f : nat → X → msg) n xs c fl inp out :
  print_each f n xs (World c fl inp out) =
  (Ret tt, World c fl inp (out ++ numbered f n xs)).
Proof.
  revert n out. induction xs as [|x xs IH]; intros n out.
  - cbn. by rewrite app_nil_r.
  - cbn [print_each]. unfold mbind, M_bind, print. cbn [w_conn w_faults w_input w_output].
    rewrite IH. unfold numbered. cbn [imap]. rewrite Nat.add_0_r, <- app_assoc. cbn [app].
    do 4 f_equal. apply imap_ext. intros i y _. cbn. f_equal. lia.
Qed.

Lemma display_sales_list_run sales c fl inp out :
  display_sales_list sales (World c fl inp out) =
  (Ret tt, World c fl inp (out ++ list_msgs sales)).
Proof.
  unfold display_sales_list, mbind, M_bind, print.
  cbn [w_conn w_faults w_input w_output]. rewrite print_each_run.
  cbn [w_conn w_faults w_input w_output]. unfold list_msgs.
  by rewrite <- !app_assoc.
Qed.

Lemma length_omap_all {X Y : Type} (f : X → option Y) xs :
  (∀ x, x ∈ xs → is_Some (f x)) → length (omap f xs) = length xs.
Proof.
  induction xs as [|x xs IH]; intros Hall; [done|]. cbn [omap list_omap].
  destruct (Hall x) as [y ->]; [apply elem_of_cons; by left|]. cbn [length].
  rewrite IH; [done|]. intros z Hz. apply Hall, elem_of_cons. by right.
Qed.

Lemma length_sales_by_sid d : length (sales_by_sid d) = size (sale d).
Proof. unfold sales_by_sid. by rewrite merge_sort_Permutation, length_map_to_list. Qed.

End Views.

(** X9.  [print_sale_report] on any connection: it makes one store call
    and reads no input; when the call succeeds it prints the header and
    one numbered entry per row of the join, in [sid] order, and returns;
    when the call fails it prints nothing and [sqlite3.Error] leaves it.
    The connection is never changed. *)
Theorem print_sale_report_run c fl inp out :
  print_sale_report (World c fl inp out) =
  if bool_decide (head fl = Some true)
  then (Raise SqliteError, World c (tail fl) inp out)
  else (Ret tt,
        World c (tail fl) inp
              (out ++ MsgReportHeader
                   :: numbered MsgReportSale 1 (select_report (working c)))).
Proof.
  unfold print_sale_report, mbind, M_bind. rewrite query_run by done.
  case_bool_decide; [done|].
  unfold print. cbn [w_conn w_faults w_input w_output]. rewrite print_each_run.
  by rewrite <- app_assoc.
Qed.

(** X10.  In every reachable connection the report has exactly one row
    per sale, and in each row the subtotal is the unit price times the
    quantity minus the discount, with a quantity above zero and a
    discount of at least zero. *)
Theorem reachable_report_consistent c :
  reachable c →
  length (select_report (working c)) = size (sale (working c)) ∧
  ∀ r, r ∈ select_report (working c) →
       r_stotal r = r_bprice r * r_sqty r - r_sdiscount r ∧
       0 < r_sqty r ∧ 0 ≤ r_sdiscount r.
Proof.
  intros Hreach.
  destruct (reachable_inv c Hreach) as (d & -> & _ & Hsa & Hre).
  destruct (reachable_ledger _ Hreach) as (d' & [= <-] & _ & _ & _ & Hmo & Hto & _).
  cbn [working connect]. split.
  - rewrite <- length_sales_by_sid. apply length_omap_all.
    intros [k s] Hs%sales_by_sid_elem. cbn in Hs |- *.
    destruct (Hmo _ _ Hs) as [m ->]. destruct (Hre _ _ Hs) as [b ->]. cbn. eauto.
  - intros r (s & m & b & Hs & Hm & Hb & ->)%select_report_elem. cbn.
    destruct (Hto _ _ Hs) as (b' & Hb' & Htot). rewrite Hb in Hb'. injection Hb' as <-.
    destruct (Hsa _ _ Hs). done.
Qed.

Lemma reachable_report_consistent_witness :
  let c := w_conn (add_sale (World (connect seed_db) []
                              ["2024-01-15"; "M001"; "B001"; "50"; "0"] [])).2 in
  length (select_report (working c)) = size (sale (working c)) ∧
  ∀ r, r ∈ select_report (working c) →
       r_stotal r = r_bprice r * r_sqty r - r_sdiscount r ∧
       0 < r_sqty r ∧ 0 ≤ r_sdiscount r.
Proof. apply reachable_report_consistent. exact reachable_sold_out. Defined.

(** ** [update_sale] and [delete_sale], run *)

Lemma ask_choice_accept sales (sel : Z → M unit) choice n l :
  py_int choice = Some n → 1 ≤ n → sales !! Z.to_nat (n - 1) = Some l →
  ask_choice sales sel choice = Leave (sel (n - 1)).
Proof.
  intros Hn Hn1 Hl. unfold ask_choice.
  case_decide as Hempty; [subst choice; discriminate Hn|]. rewrite Hn. cbn zeta.
  apply lookup_lt_Some in Hl.
  destruct (Z.ltb_spec (n - 1) 0); [lia|].
  destruct (Z.leb_spec (Z.of_nat (length sales)) (n - 1)); [lia|]. done.
Qed.

Lemma ask_choice_cancel sales (sel : Z → M unit) :
  ask_choice sales sel EmptyString = Leave (ret tt).
Proof. unfold ask_choice. by rewrite decide_True. Qed.

Lemma ask_new_discount_accept l v :
  py_int l = Some v → 0 ≤ v → ask_new_discount l = Leave (ret v).
Proof. unfold ask_new_discount. intros -> Hv. by destruct (Z.ltb_spec v 0); [lia|]. Qed.

Section Selection.

Implicit Types (c : conn) (fl : list bool) (out : list msg).

(** [update_sale] up to the choice prompt, when the list is not empty. *)
Lemma update_sale_listed c fl inp out :
  head fl ≠ Some true → select_sales_list (working c) ≠ [] →
  update_sale (World c fl inp out) =
  prompt_loop (ask_choice (select_sales_list (working c))
                 (update_selected (select_sales_list (working c))))
    (World c (tail fl) inp (out ++ list_msgs (select_sales_list (working c)))).
Proof.
  intros Hfl Hne. unfold update_sale, get_sales_list, mbind, M_bind.
  rewrite query_ok by done.
  destruct (select_sales_list (working c)) as [|l0 ls] eqn:E; [done|].
  by rewrite display_sales_list_run.
Qed.

Lemma delete_sale_listed c fl inp out :
  head fl ≠ Some true → select_sales_list (working c) ≠ [] →
  delete_sale (World c fl inp out) =
  prompt_loop (ask_choice (select_sales_list (working c))
                 (delete_selected (select_sales_list (working c))))
    (World c (tail fl) inp (out ++ list_msgs (select_sales_list (working c)))).
Proof.
  intros Hfl Hne. unfold delete_sale, get_sales_list, mbind, M_bind.
  rewrite query_ok by done.
  destruct (select_sales_list (working c)) as [|l0 ls] eqn:E; [done|].
  by rewrite display_sales_list_run.
Qed.

Lemma lookup_nonempty {X : Type} (xs : list X) i x : xs !! i = Some x → xs ≠ [].
Proof. by destruct xs. Qed.

End Selection.

(** Whether a choice is rejected, and with which message, does not
    depend on what a valid choice goes on to do. *)
Lemma ask_choice_again sales (sel sel' : Z → M unit) choice m :
  ask_choice sales sel choice = Again m → ask_choice sales sel' choice = Again m.
Proof.
  unfold ask_choice. case_decide; [done|].
  destruct (py_int choice); [|done]. cbn zeta.
  by destruct ((_ <? _) || (_ <=? _)).
Qed.

Lemma rejected_choice_any sales (sel sel' : Z → M unit) bad :
  Forall (rejected (ask_choice sales sel)) bad →
  Forall (rejected (ask_choice sales sel')) bad ∧
  rejections (ask_choice sales sel') bad = rejections (ask_choice sales sel) bad.
Proof.
  induction 1 as [|l bad [m Hl] _ [IH1 IH2]]; [by split|]. split.
  - constructor; [|done]. exists m. by eapply ask_choice_again.
  - unfold rejections in *. cbn [omap list_omap].
    rewrite Hl, (ask_choice_again _ _ sel' _ _ Hl). cbn. by rewrite IH2.
Qed.

(** X11.  An empty line at the choice prompt cancels.  On any
    connection whose list of sales is not empty, with the store
    answering the one query: after rejected choices and an empty line,
    [update_sale] and [delete_sale] return normally, the connection is
    as it was, and the input after the empty line is left to the
    menu. *)
Theorem selection_cancelled c fl (bad_choices rest : list string) (out : list msg) :
  let sales := select_sales_list (working c) in
  let inp := (bad_choices ++ EmptyString :: rest)%list in
  let out' := (out ++ list_msgs sales
                   ++ rejections (ask_choice sales (update_selected sales)) bad_choices)%list in
  calm 1 fl → sales ≠ [] →
  Forall (rejected (ask_choice sales (update_selected sales))) bad_choices →
  update_sale (World c fl inp out) = (Ret tt, World c (tail fl) rest out') ∧
  delete_sale (World c fl inp out) = (Ret tt, World c (tail fl) rest out').
Proof.
  intros sales inp out' Hfl Hne Hbad. subst sales inp out'.
  assert (Hhead : head fl ≠ Some true)
    by (rewrite <- (drop_0 fl); apply (calm_head_drop 1); [done | lia]).
  split.
  - rewrite update_sale_listed by done.
    rewrite (prompt_loop_run _ bad_choices EmptyString (ret tt))
      by auto using ask_choice_cancel.
    by rewrite <- app_assoc.
  - rewrite delete_sale_listed by done.
    destruct (rejected_choice_any _ _
                (delete_selected (select_sales_list (working c))) _ Hbad) as [Hbad' Hrej].
    rewrite (prompt_loop_run _ bad_choices EmptyString (ret tt))
      by auto using ask_choice_cancel.
    by rewrite Hrej, <- app_assoc.
Qed.

Lemma selection_cancelled_witness :
  let c := connect seed_db in
  let out' :=
    [MsgListHeader;
     MsgListItem 1 (Listing 1 "2024-01-15" "Alice");
     MsgListItem 2 (Listing 2 "2024-01-16" "Bob");
     MsgListItem 3 (Listing 3 "2024-01-17" "Alice");
     MsgListItem 4 (Listing 4 "2024-01-18" "Cathy");
     MsgListFooter;
     MsgBadChoice; MsgBadChoice] in
  update_sale (World c [] ["9"; "x"; EmptyString; "5"] []) = (Ret tt, World c [] ["5"] out') ∧
  delete_sale (World c [] ["9"; "x"; EmptyString; "5"] []) = (Ret tt, World c [] ["5"] out').
Proof.
  apply (selection_cancelled (connect seed_db) [] ["9"; "x"] ["5"] []).
  - unfold calm. cbn. constructor.
  - by vm_compute.
  - repeat constructor; eexists; vm_compute; reflexivity.
Defined.

(** X12.  With no sale to list (none at all, or none whose member is in
    the member table), and the store answering the query,
    [update_sale] and [delete_sale] print the no-sales message and
    return without reading a line or changing the connection. *)
Theorem selection_without_sales c fl inp out :
  select_sales_list (working c) = [] → calm 1 fl →
  update_sale (World c fl inp out) = (Ret tt, World c (tail fl) inp (out ++ [MsgNoSales])) ∧
  delete_sale (World c fl inp out) = (Ret tt, World c (tail fl) inp (out ++ [MsgNoSales])).
Proof.
  intros Hnone Hfl.
  assert (Hhead : head fl ≠ Some true)
    by (rewrite <- (drop_0 fl); apply (calm_head_drop 1); [done | lia]).
  unfold update_sale, delete_sale, get_sales_list, mbind, M_bind.
  rewrite query_ok by done. by rewrite Hnone.
Qed.

Lemma selection_without_sales_witness :
  let c := connect (Db (member seed_db) (book seed_db) ∅ 4) in
  update_sale (World c [] ["1"] []) = (Ret tt, World c (tail []) ["1"] ([] ++ [MsgNoSales])) ∧
  delete_sale (World c [] ["1"] []) = (Ret tt, World c (tail []) ["1"] ([] ++ [MsgNoSales])).
Proof.
  apply selection_without_sales.
  - by vm_compute.
  - unfold calm. cbn. constructor.
Defined.

Section UpdateRun.

Variables (d : db) (bad_choices : list string) (choice : string) (n : Z) (l : listing).
Variables (bad_discs : list string) (ds : string) (nd : Z) (rest : list string).
Variables (s : sale_row) (b : book_row).

Let sales := select_sales_list d.
Let inp := (bad_choices ++ choice :: bad_discs ++ ds :: rest)%list.
Let total := bprice b * sqty s - nd.

Hypothesis Hbc : Forall (rejected (ask_choice sales (update_selected sales))) bad_choices.
Hypothesis Hn : py_int choice = Some n.
Hypothesis Hn1 : 1 ≤ n.
Hypothesis Hl : sales !! Z.to_nat (n - 1) = Some l.
Hypothesis Hbd : Forall (rejected ask_new_discount) bad_discs.
Hypothesis Hds : py_int ds = Some nd.
Hypothesis Hnd : 0 ≤ nd.
Hypothesis Hs : sale d !! l_sid l = Some s.
Hypothesis Hb : book d !! bid s = Some b.

Lemma update_sale_selected_run fl out :
  head fl ≠ Some true →
  update_sale (World (connect d) fl inp out) =
  update_selected sales (n - 1)
    (World (connect d) (tail fl) (bad_discs ++ ds :: rest)
       (out ++ list_msgs sales
            ++ rejections (ask_choice sales (update_selected sales)) bad_choices)).
Proof.
  intros Hfl. rewrite update_sale_listed by (done || by eapply lookup_nonempty).
  cbn [working connect]. fold sales. subst inp.
  rewrite (prompt_loop_run _ bad_choices choice (update_selected sales (n - 1)))
    by eauto using ask_choice_accept.
  by rewrite <- app_assoc.
Qed.

Lemma select_sale_with_price_selected :
  select_sale_with_price (l_sid l) d = Some (s, bprice b).
Proof. unfold select_sale_with_price. rewrite Hs. cbn. by rewrite Hb. Qed.

Lemma update_sale_updated_run fl out :
  calm 4 fl →
  int64 (l_sid l) = true → int64 nd = true → int64 total = true →
  update_sale (World (connect d) fl inp out) =
  (Ret tt,
   World (connect (set_discount (l_sid l) nd total d)) (drop 4 fl) rest
         (out ++ list_msgs sales
              ++ rejections (ask_choice sales (update_selected sales)) bad_choices
              ++ rejections ask_new_discount bad_discs
              ++ [MsgSaleUpdated (l_sid l) total])).
Proof.
  intros Hfl Hsid64 Hnd64 Htot64.
  assert (Hfault : ∀ k, (k < 4)%nat → head (drop k fl) ≠ Some true)
    by (intros k Hk; by apply (calm_head_drop 4)).
  rewrite update_sale_selected_run by (rewrite <- (drop_0 fl); apply Hfault; lia).
  rewrite <- (drop_0 fl) at 1. rewrite tail_drop.
  unfold update_selected, try_except_sqlite, mbind, M_bind. rewrite Hl.
  rewrite query_ok by ((cbn [forallb]; by rewrite Hsid64) || (apply Hfault; lia)).
  cbn [working connect]. rewrite select_sale_with_price_selected.
  rewrite (prompt_loop_run ask_new_discount bad_discs ds (ret nd))
    by auto using ask_new_discount_accept.
  unfold ret at 1. cbv beta iota.
  rewrite tail_drop, exec_ok
    by ((cbn [forallb]; fold total; by rewrite Hnd64, Htot64, Hsid64) || (apply Hfault; lia)).
  rewrite tail_drop, commit_ok by (apply Hfault; lia).
  rewrite tail_drop. unfold print.
  cbn [w_conn w_faults w_input w_output working committed connect].
  by rewrite <- !app_assoc.
Qed.

Lemma update_sale_store_error_run fl out i :
  (i < 3)%nat → calm (1 + i) fl → fl !! (1 + i)%nat = Some true →
  int64 (l_sid l) = true → int64 nd = true → int64 total = true →
  ∃ fl' inp' out',
    update_sale (World (connect d) fl inp out) =
    (Ret tt, World (connect d) fl' inp' (out' ++ [MsgError])).
Proof.
  intros Hi Hfl Hbang Hsid64 Hnd64 Htot64.
  assert (Hfault : ∀ k, (k < 1 + i)%nat → head (drop k fl) ≠ Some true)
    by (intros k Hk; by apply (calm_head_drop (1 + i))).
  assert (Hstop : head (drop (1 + i) fl) = Some true) by (by rewrite head_drop).
  assert (Hp1 : forallb int64 [l_sid l] = true) by (cbn [forallb]; by rewrite Hsid64).
  assert (Hp3 : forallb int64 [nd; bprice b * sqty s - nd; l_sid l] = true)
    by (cbn [forallb]; fold total; by rewrite Hnd64, Htot64, Hsid64).
  destruct i as [|[|[|i]]]; [| | |lia]; cbn [Nat.add] in *; eexists _, _, _;
    rewrite update_sale_selected_run by (rewrite <- (drop_0 fl); apply Hfault; lia);
    rewrite <- (drop_0 fl) at 1; rewrite tail_drop;
    unfold update_selected, try_except_sqlite, mbind, M_bind; rewrite Hl.
  - rewrite query_run by done. rewrite bool_decide_eq_true_2 by done.
    unfold rollback, print.
    cbn [w_conn w_faults w_input w_output committed connect]. reflexivity.
  - rewrite query_ok by (done || (apply Hfault; lia)).
    cbn [working connect]. rewrite select_sale_with_price_selected.
    rewrite (prompt_loop_run ask_new_discount bad_discs ds (ret nd))
      by auto using ask_new_discount_accept.
    unfold ret at 1. cbv beta iota.
    rewrite tail_drop, exec_fault by done.
    unfold rollback, print.
    cbn [w_conn w_faults w_input w_output committed connect]. reflexivity.
  - rewrite query_ok by (done || (apply Hfault; lia)).
    cbn [working connect]. rewrite select_sale_with_price_selected.
    rewrite (prompt_loop_run ask_new_discount bad_discs ds (ret nd))
      by auto using ask_new_discount_accept.
    unfold ret at 1. cbv beta iota.
    rewrite tail_drop, exec_ok by (done || (apply Hfault; lia)).
    rewrite tail_drop, commit_fault by done.
    unfold rollback, print.
    cbn [w_conn w_faults w_input w_output committed connect]. reflexivity.
Qed.

Lemma update_sale_overflow_run fl out :
  calm 2 fl → int64 (l_sid l) = true →
  int64 nd = false ∨ int64 total = false →
  update_sale (World (connect d) fl inp out) =
  (Raise OverflowError,
   World (connect d) (drop 2 fl) rest
         (out ++ list_msgs sales
              ++ rejections (ask_choice sales (update_selected sales)) bad_choices
              ++ rejections ask_new_discount bad_discs)).
Proof.
  intros Hfl Hsid64 Hover.
  assert (Hfault : ∀ k, (k < 2)%nat → head (drop k fl) ≠ Some true)
    by (intros k Hk; by apply (calm_head_drop 2)).
  rewrite update_sale_selected_run by (rewrite <- (drop_0 fl); apply Hfault; lia).
  rewrite <- (drop_0 fl) at 1. rewrite tail_drop.
  unfold update_selected, try_except_sqlite, mbind, M_bind. rewrite Hl.
  rewrite query_ok by ((cbn [forallb]; by rewrite Hsid64) || (apply Hfault; lia)).
  cbn [working connect]. rewrite select_sale_with_price_selected.
  rewrite (prompt_loop_run ask_new_discount bad_discs ds (ret nd))
    by auto using ask_new_discount_accept.
  unfold ret at 1. cbv beta iota.
  unfold exec, bind_params, mbind, M_bind.
  assert (forallb int64 [nd; bprice b * sqty s - nd; l_sid l] = false) as ->.
  { cbn [forallb]. fold total. destruct Hover as [-> | ->]; [done|].
    by rewrite andb_false_r. }
  by rewrite tail_drop, <- !app_assoc.
Qed.

End UpdateRun.

Section DeleteRun.

Variables (d : db) (bad_choices : list string) (choice : string) (n : Z) (l : listing).
Variable rest : list string.

Let sales := select_sales_list d.

Hypothesis Hbc : Forall (rejected (ask_choice sales (delete_selected sales))) bad_choices.
Hypothesis Hn : py_int choice = Some n.
Hypothesis Hn1 : 1 ≤ n.
Hypothesis Hl : sales !! Z.to_nat (n - 1) = Some l.

Lemma delete_sale_deleted_run fl out :
  calm 3 fl → int64 (l_sid l) = true →
  delete_sale (World (connect d) fl (bad_choices ++ choice :: rest) out) =
  (Ret tt,
   World (connect (delete_row (l_sid l) d)) (drop 3 fl) rest
         (out ++ list_msgs sales
              ++ rejections (ask_choice sales (delete_selected sales)) bad_choices
              ++ [MsgSaleDeleted (l_sid l)])).
Proof.
  intros Hfl Hsid64.
  assert (Hfault : ∀ k, (k < 3)%nat → head (drop k fl) ≠ Some true)
    by (intros k Hk; by apply (calm_head_drop 3)).
  rewrite delete_sale_listed
    by ((rewrite <- (drop_0 fl); apply Hfault; lia) || by eapply lookup_nonempty).
  cbn [working connect]. fold sales.
  rewrite (prompt_loop_run _ bad_choices choice (delete_selected sales (n - 1)))
    by eauto using ask_choice_accept.
  rewrite <- (drop_0 fl) at 1. rewrite tail_drop.
  unfold delete_selected, mbind, M_bind. rewrite Hl.
  rewrite exec_ok by ((cbn [forallb]; by rewrite Hsid64) || (apply Hfault; lia)).
  rewrite tail_drop, commit_ok by (apply Hfault; lia).
  rewrite tail_drop. unfold print.
  cbn [w_conn w_faults w_input w_output working committed connect].
  by rewrite <- !app_assoc.
Qed.

End DeleteRun.

Section AddSaleOverflow.

Variables (bad_dates : list string) (sdate mid bid : string).
Variables (bad_qtys : list string) (qs : string) (q : Z).
Variables (bad_discs : list string) (ds : string) (disc : Z).
Variable rest : list string.

Hypothesis Hbad_dates : Forall (rejected ask_date) bad_dates.
Hypothesis Hdate : validate_date sdate = true.
Hypothesis Hbad_qtys : Forall (rejected ask_qty) bad_qtys.
Hypothesis Hqs : py_int qs = Some q.
Hypothesis Hq : 0 < q.
Hypothesis Hbad_discs : Forall (rejected ask_discount) bad_discs.
Hypothesis Hds : py_int ds = Some disc.
Hypothesis Hdisc : 0 ≤ disc.

Lemma add_sale_overflow_run d fl out b :
  is_Some (member d !! mid) → book d !! bid = Some b → q ≤ bstock b →
  int64 disc = false ∨ int64 (bprice b * q - disc) = false →
  calm 4 fl →
  add_sale (World (connect d) fl
              (bad_dates ++ sdate :: mid :: bid :: bad_qtys ++ qs :: bad_discs ++ ds :: rest)
              out) =
  (Raise OverflowError,
   World (connect d) (drop 4 fl) rest
         (out ++ rejections ask_date bad_dates ++ rejections ask_qty bad_qtys
              ++ rejections ask_discount bad_discs)).
Proof.
  intros Hm Hb Hle Hover Hfl.
  assert (Hfault : ∀ k, (k < 4)%nat → head (drop k fl) ≠ Some true)
    by (intros k Hk; by apply (calm_head_drop 4)).
  unfold add_sale, mbind, M_bind.
  rewrite (prompt_loop_run ask_date bad_dates sdate (ret sdate)) by auto using ask_date_accept.
  rewrite <- (drop_0 fl).
  add_sale_checks Hfault Hb Hle.
  unfold exec, bind_params, mbind, M_bind.
  assert (forallb int64 [q; disc; bprice b * q - disc] = false) as ->.
  { cbn [forallb]. destruct Hover as [-> | ->]; by rewrite ?andb_false_r. }
  by rewrite tail_drop, <- !app_assoc.
Qed.

End AddSaleOverflow.

(** * The claims on update and delete *)

(** C4.  [update_sale] changes the discount and the total of the
    selected sale, and nothing else.

    First, every run from a connection with no open transaction,
    whatever the input and the store do, either leaves the connection as
    it was, or its input is a run of rejected choices, the number [n],
    from 1 on, of a listed sale, rejected discounts and a discount [nd]
    of at least zero; then it returns with the change committed; that
    sale keeps its date, member, book and quantity and has discount
    [nd] and total = the book's current price times the quantity minus
    [nd]; every other sale row, the members and the books (so every
    stock) are as before.

    Second, the update is made: on such an input, with values SQLite
    can take and the store answering its four calls, [update_sale]
    returns with exactly that change committed. *)
Theorem update_sale_frame :
  (∀ d fl inp out,
     let w := World (connect d) fl inp out in
     let c' := w_conn (update_sale w).2 in
     c' = connect d ∨
     ∃ (bad_choices : list string) choice n l (bad_discs : list string) ds nd s b,
       inp = (bad_choices ++ choice :: bad_discs ++ ds :: w_input (update_sale w).2)%list ∧
       Forall (rejected (ask_choice (select_sales_list d)
                                    (update_selected (select_sales_list d)))) bad_choices ∧
       (py_int choice = Some n ∧ 1 ≤ n ∧
        select_sales_list d !! Z.to_nat (n - 1) = Some l) ∧
       (Forall (rejected ask_new_discount) bad_discs ∧ py_int ds = Some nd ∧ 0 ≤ nd) ∧
       (sale d !! l_sid l = Some s ∧ book d !! bid s = Some b) ∧
       (update_sale w).1 = Ret tt ∧
       committed c' = working c' ∧
       sale (working c') !! l_sid l =
         Some (SaleRow (sdate s) (mid s) (bid s) (sqty s) nd (bprice b * sqty s - nd)) ∧
       (∀ sid', sid' ≠ l_sid l → sale (working c') !! sid' = sale d !! sid') ∧
       member (working c') = member d ∧
       book (working c') = book d) ∧
  (∀ d fl (bad_choices : list string) choice n l (bad_discs : list string) ds nd
     (rest : list string) (out : list msg) s b,
     let sales := select_sales_list d in
     Forall (rejected (ask_choice sales (update_selected sales))) bad_choices →
     py_int choice = Some n → 1 ≤ n → sales !! Z.to_nat (n - 1) = Some l →
     Forall (rejected ask_new_discount) bad_discs → py_int ds = Some nd → 0 ≤ nd →
     sale d !! l_sid l = Some s → book d !! bid s = Some b →
     int64 (l_sid l) = true → int64 nd = true → int64 (bprice b * sqty s - nd) = true →
     calm 4 fl →
     let w := World (connect d) fl
                (bad_choices ++ choice :: bad_discs ++ ds :: rest)%list out in
     let c' := w_conn (update_sale w).2 in
     (update_sale w).1 = Ret tt ∧
     committed c' = working c' ∧
     sale (working c') !! l_sid l =
       Some (SaleRow (sdate s) (mid s) (bid s) (sqty s) nd (bprice b * sqty s - nd)) ∧
     (∀ sid', sid' ≠ l_sid l → sale (working c') !! sid' = sale d !! sid') ∧
     member (working c') = member d ∧
     book (working c') = book d).
Proof.
  split.
  - intros d fl inp out w c'. subst w c'.
    destruct (update_sale (World (connect d) fl inp out)) as [r w'] eqn:Hrun.
    cbn [fst snd].
    apply update_sale_effect in Hrun as [[-> | Hupd] _]; [by left|]. right.
    destruct Hupd as (bad_choices & choice & n & l & bad_discs & ds & nd & s & b & Hinp
                      & Hbc & Hn & Hn1 & Hl & Hbd & Hds & Hnd & Hs & Hb & -> & Hc).
    exists bad_choices, choice, n, l, bad_discs, ds, nd, s, b.
    cbn [fst snd]. rewrite Hc. cbn [working committed connect].
    repeat (split; [done|]).
    split; [by rewrite sale_after_set_discount, decide_True, Hs by done|].
    split; [intros sid' Hne; by rewrite sale_after_set_discount, decide_False by done|].
    done.
  - intros d fl bad_choices choice n l bad_discs ds nd rest out s b sales
           Hbc Hn Hn1 Hl Hbd Hds Hnd Hs Hb Hsid64 Hnd64 Htot64 Hfl w c'.
    subst sales w c'.
    rewrite (update_sale_updated_run d bad_choices choice n l bad_discs ds nd rest s b)
      by done.
    cbn [fst snd w_conn working committed connect].
    split; [done|]. split; [done|].
    split; [by rewrite sale_after_set_discount, decide_True, Hs by done|].
    split; [intros sid' Hne; by rewrite sale_after_set_discount, decide_False by done|].
    done.
Qed.

(** Sale 1 of the seeded file, after a rejected choice and a rejected
    discount, gets discount 50 and total 1150; nothing else changes. *)
Lemma update_sale_frame_witness :
  let w := World (connect seed_db) [] ["x"; "1"; "-5"; "50"; "2"] [] in
  let c' := w_conn (update_sale w).2 in
  (update_sale w).1 = Ret tt ∧
  committed c' = working c' ∧
  sale (working c') !! 1 = Some (SaleRow "2024-01-15" "M001" "B001" 2 50 (600 * 2 - 50)) ∧
  (∀ sid', sid' ≠ 1 → sale (working c') !! sid' = sale seed_db !! sid') ∧
  member (working c') = member seed_db ∧
  book (working c') = book seed_db.
Proof.
  destruct update_sale_frame as [_ Hupdate].
  apply (Hupdate seed_db [] ["x"] "1" 1 (Listing 1 "2024-01-15" "Alice")
           ["-5"] "50" 50 ["2"] []
           (SaleRow "2024-01-15" "M001" "B001" 2 100 1100)
           (BookRow "Python Programming" 600 50));
    try (repeat constructor; eexists; vm_compute; reflexivity);
    try (vm_compute; reflexivity);
    try lia.
Defined.

(** The end-to-end example of the specification: sale 1 (two copies of
    B001 at 600) updated to discount 50 has total 1150. *)
Example update_sale_example :
  let w := World (connect seed_db) [] ["1"; "50"] [] in
  (update_sale w).1 = Ret tt ∧
  sale (committed (w_conn (update_sale w).2)) !! 1 =
    Some (SaleRow "2024-01-15" "M001" "B001" 2 50 1150).
Proof. by vm_compute. Qed.

(** C5.  [delete_sale] removes the selected sale, and nothing else.

    First, every run from a connection with no open transaction,
    whatever the input and the store do, either leaves the connection as
    it was, or its input is a run of rejected choices and the number
    [n], from 1 on, of a listed sale; then in the transaction that
    sale's row is gone and every other sale row, the members and the
    books (so every stock) are as before; and either the operation
    returns with that committed, or [commit] raised, the file is as
    before and the exception leaves the operation.

    Second, the delete is made: on such an input, with the store
    answering its three calls, [delete_sale] returns with the change
    committed: the row, which was in the table, is gone, and everything
    else is as before. *)
Theorem delete_sale_frame :
  (∀ d fl inp out,
     let w := World (connect d) fl inp out in
     let c' := w_conn (delete_sale w).2 in
     c' = connect d ∨
     ∃ (bad_choices : list string) choice n l s,
       inp = (bad_choices ++ choice :: w_input (delete_sale w).2)%list ∧
       Forall (rejected (ask_choice (select_sales_list d)
                                    (delete_selected (select_sales_list d)))) bad_choices ∧
       (py_int choice = Some n ∧ 1 ≤ n ∧
        select_sales_list d !! Z.to_nat (n - 1) = Some l) ∧
       sale d !! l_sid l = Some s ∧
       sale (working c') !! l_sid l = None ∧
       (∀ sid', sid' ≠ l_sid l → sale (working c') !! sid' = sale d !! sid') ∧
       member (working c') = member d ∧
       book (working c') = book d ∧
       (((delete_sale w).1 = Ret tt ∧ committed c' = working c') ∨
        ((delete_sale w).1 = Raise SqliteError ∧ committed c' = d))) ∧
  (∀ d fl (bad_choices : list string) choice n l (rest : list string) (out : list msg),
     let sales := select_sales_list d in
     Forall (rejected (ask_choice sales (delete_selected sales))) bad_choices →
     py_int choice = Some n → 1 ≤ n → sales !! Z.to_nat (n - 1) = Some l →
     int64 (l_sid l) = true → calm 3 fl →
     let w := World (connect d) fl (bad_choices ++ choice :: rest)%list out in
     let c' := w_conn (delete_sale w).2 in
     (delete_sale w).1 = Ret tt ∧
     committed c' = working c' ∧
     is_Some (sale d !! l_sid l) ∧
     sale (working c') !! l_sid l = None ∧
     (∀ sid', sid' ≠ l_sid l → sale (working c') !! sid' = sale d !! sid') ∧
     member (working c') = member d ∧
     book (working c') = book d).
Proof.
  split.
  - intros d fl inp out w c'. subst w c'.
    destruct (delete_sale (World (connect d) fl inp out)) as [r w'] eqn:Hrun.
    cbn [fst snd].
    apply delete_sale_effect in Hrun as [[-> | Hdel] _]; [by left|]. right.
    destruct Hdel
      as (bad_choices & choice & n & l & s & Hinp & Hbc & Hn & Hn1 & Hl & Hs & Hc).
    exists bad_choices, choice, n, l, s. cbn [fst snd].
    assert (Hw : working (w_conn w') = delete_row (l_sid l) d)
      by (by destruct Hc as [[_ ->] | [_ ->]]).
    rewrite Hw. cbn [delete_row member book sale].
    repeat (split; [done|]).
    split; [apply lookup_delete_eq|].
    split; [intros sid' Hne; by apply lookup_delete_ne|].
    split; [done|]. split; [done|].
    destruct Hc as [[-> ->] | [-> ->]]; [by left | by right].
  - intros d fl bad_choices choice n l rest out sales Hbc Hn Hn1 Hl Hsid64 Hfl w c'.
    subst sales w c'.
    rewrite (delete_sale_deleted_run d bad_choices choice n l rest) by done.
    cbn [fst snd w_conn working committed connect].
    split; [done|]. split; [done|].
    split.
    { apply list_elem_of_lookup_2 in Hl.
      apply select_sales_list_elem in Hl as (s & m & Hs & _). eauto. }
    split; [by rewrite sale_after_delete, decide_True by done|].
    split; [intros sid' Hne; by rewrite sale_after_delete, decide_False by done|].
    done.
Qed.

(** Sale 2 of the seeded file, after a rejected choice, is deleted;
    nothing else changes. *)
Lemma delete_sale_frame_witness :
  let w := World (connect seed_db) [] ["0"; "2"; "5"] [] in
  let c' := w_conn (delete_sale w).2 in
  (delete_sale w).1 = Ret tt ∧
  committed c' = working c' ∧
  is_Some (sale seed_db !! 2) ∧
  sale (working c') !! 2 = None ∧
  (∀ sid', sid' ≠ 2 → sale (working c') !! sid' = sale seed_db !! sid') ∧
  member (working c') = member seed_db ∧
  book (working c') = book seed_db.
Proof.
  destruct delete_sale_frame as [_ Hdelete].
  apply (Hdelete seed_db [] ["0"] "2" 2 (Listing 2 "2024-01-16" "Bob") ["5"] []);
    try (repeat constructor; eexists; vm_compute; reflexivity);
    try (vm_compute; reflexivity);
    try lia.
Defined.

(** The row is gone and the stock of its book is what it was. *)
Example delete_sale_example :
  let w := World (connect seed_db) [] ["2"] [] in
  (delete_sale w).1 = Ret tt ∧
  sale (committed (w_conn (delete_sale w).2)) !! 2 = None ∧
  (bstock <$> book (committed (w_conn (delete_sale w).2)) !! "B002") = Some 30.
Proof. by vm_compute. Qed.

(** * Further properties of update, delete and create *)

(** X13.  What the user sees of an update.  With the input, the values
    and the store as in C4: [update_sale] makes four store calls and
    returns; it has printed the list, one message for each rejected
    line, and last the message that reports the [sid] and the new
    total; the lines after the discount are left unread; and the file
    holds the row with the new discount and total. *)
Theorem update_sale_updates d fl (bad_choices : list string) choice n l
    (bad_discs : list string) ds nd (rest : list string) (out : list msg) s b :
  let sales := select_sales_list d in
  let total := bprice b * sqty s - nd in
  Forall (rejected (ask_choice sales (update_selected sales))) bad_choices →
  py_int choice = Some n → 1 ≤ n → sales !! Z.to_nat (n - 1) = Some l →
  Forall (rejected ask_new_discount) bad_discs → py_int ds = Some nd → 0 ≤ nd →
  sale d !! l_sid l = Some s → book d !! bid s = Some b →
  int64 (l_sid l) = true → int64 nd = true → int64 total = true →
  calm 4 fl →
  let w := World (connect d) fl (bad_choices ++ choice :: bad_discs ++ ds :: rest)%list out in
  (update_sale w).1 = Ret tt ∧
  w_faults (update_sale w).2 = drop 4 fl ∧
  w_input (update_sale w).2 = rest ∧
  w_output (update_sale w).2 =
    (out ++ list_msgs sales
         ++ rejections (ask_choice sales (update_selected sales)) bad_choices
         ++ rejections ask_new_discount bad_discs
         ++ [MsgSaleUpdated (l_sid l) total])%list ∧
  sale (committed (w_conn (update_sale w).2)) !! l_sid l =
    Some (SaleRow (sdate s) (mid s) (bid s) (sqty s) nd total).
Proof.
  intros sales total Hbc Hn Hn1 Hl Hbd Hds Hnd Hs Hb Hsid64 Hnd64 Htot64 Hfl w.
  subst sales total w.
  rewrite (update_sale_updated_run d bad_choices choice n l bad_discs ds nd rest s b)
    by done.
  cbn [fst snd w_conn w_faults w_input w_output committed connect].
  repeat (split; [done|]).
  by rewrite sale_after_set_discount, decide_True, Hs by done.
Qed.

Lemma update_sale_updates_witness :
  let w := World (connect seed_db) [] ["0"; "3"; "-1"; "x"; "400"; "2"] [] in
  (update_sale w).1 = Ret tt ∧
  w_faults (update_sale w).2 = [] ∧
  w_input (update_sale w).2 = ["2"] ∧
  w_output (update_sale w).2 =
    [MsgListHeader;
     MsgListItem 1 (Listing 1 "2024-01-15" "Alice");
     MsgListItem 2 (Listing 2 "2024-01-16" "Bob");
     MsgListItem 3 (Listing 3 "2024-01-17" "Alice");
     MsgListItem 4 (Listing 4 "2024-01-18" "Cathy");
     MsgListFooter;
     MsgBadChoice; MsgDiscountNegative; MsgDiscountNotInteger;
     MsgSaleUpdated 3 3200] ∧
  sale (committed (w_conn (update_sale w).2)) !! 3 =
    Some (SaleRow "2024-01-17" "M001" "B003" 3 400 3200).
Proof.
  apply (update_sale_updates seed_db [] ["0"] "3" 3 (Listing 3 "2024-01-17" "Alice")
           ["-1"; "x"] "400" 400 ["2"] []
           (SaleRow "2024-01-17" "M001" "B003" 3 200 3400)
           (BookRow "Machine Learning Guide" 1200 20));
    try (repeat constructor; eexists; vm_compute; reflexivity);
    try (vm_compute; reflexivity);
    try lia.
Defined.

(** X14.  A store error inside the [try] of [update_sale] is handled.
    With the selection and the discount as in X13, and the store
    failing at the lookup of the sale ([i = 0]), at the [UPDATE]
    ([i = 1]) or at the commit ([i = 2]): [update_sale] returns
    normally, its last message is the error message, and the connection
    is the one before, with nothing open. *)
Theorem update_sale_store_error_rolled_back d fl (bad_choices : list string) choice n l
    (bad_discs : list string) ds nd (rest : list string) (out : list msg) s b i :
  let sales := select_sales_list d in
  Forall (rejected (ask_choice sales (update_selected sales))) bad_choices →
  py_int choice = Some n → 1 ≤ n → sales !! Z.to_nat (n - 1) = Some l →
  Forall (rejected ask_new_discount) bad_discs → py_int ds = Some nd → 0 ≤ nd →
  sale d !! l_sid l = Some s → book d !! bid s = Some b →
  int64 (l_sid l) = true → int64 nd = true → int64 (bprice b * sqty s - nd) = true →
  (i < 3)%nat → calm (1 + i) fl → fl !! (1 + i)%nat = Some true →
  let w := World (connect d) fl (bad_choices ++ choice :: bad_discs ++ ds :: rest)%list out in
  (update_sale w).1 = Ret tt ∧
  w_conn (update_sale w).2 = connect d ∧
  last (w_output (update_sale w).2) = Some MsgError.
Proof.
  intros sales Hbc Hn Hn1 Hl Hbd Hds Hnd Hs Hb Hsid64 Hnd64 Htot64 Hi Hfl Hbang w.
  subst sales w.
  destruct (update_sale_store_error_run d bad_choices choice n l bad_discs ds nd rest s b
              Hbc Hn Hn1 Hl Hbd Hds Hnd Hs Hb fl out i) as (fl' & inp' & out' & ->);
    try done.
  cbn [fst snd w_conn w_output]. repeat (split; [done|]). apply last_snoc.
Qed.

Lemma update_sale_store_error_rolled_back_witness :
  let w := World (connect seed_db) [false; false; false; true] ["3"; "400"] [] in
  (update_sale w).1 = Ret tt ∧
  w_conn (update_sale w).2 = connect seed_db ∧
  last (w_output (update_sale w).2) = Some MsgError.
Proof.
  apply (update_sale_store_error_rolled_back seed_db [false; false; false; true] [] "3" 3
           (Listing 3 "2024-01-17" "Alice") [] "400" 400 [] []
           (SaleRow "2024-01-17" "M001" "B003" 3 200 3400)
           (BookRow "Machine Learning Guide" 1200 20) 2);
    try (repeat constructor; eexists; vm_compute; reflexivity);
    try (vm_compute; reflexivity);
    try lia.
Defined.

Lemma calm_le (m n : nat) fl : calm n fl → (m ≤ n)%nat → calm m fl.
Proof.
  unfold calm. intros H Hle.
  replace (take m fl) with (take m (take n fl)) by (rewrite take_take; f_equal; lia).
  by apply Forall_take.
Qed.

(** X15.  A discount, or a total, that SQLite cannot take ends
    [update_sale] in [OverflowError]: with the selection and the
    discount read as in X13 and the store answering (the two queries
    and the [UPDATE] that is not to be), the exception leaves the
    operation (the handler is for [sqlite3.Error] only), no error
    message is printed, and the connection is unchanged. *)
Theorem update_sale_overflow_escapes d fl (bad_choices : list string) choice n l
    (bad_discs : list string) ds nd (rest : list string) (out : list msg) s b :
  let sales := select_sales_list d in
  Forall (rejected (ask_choice sales (update_selected sales))) bad_choices →
  py_int choice = Some n → 1 ≤ n → sales !! Z.to_nat (n - 1) = Some l →
  Forall (rejected ask_new_discount) bad_discs → py_int ds = Some nd → 0 ≤ nd →
  sale d !! l_sid l = Some s → book d !! bid s = Some b →
  int64 (l_sid l) = true →
  int64 nd = false ∨ int64 (bprice b * sqty s - nd) = false →
  calm 3 fl →
  let w := World (connect d) fl (bad_choices ++ choice :: bad_discs ++ ds :: rest)%list out in
  (update_sale w).1 = Raise OverflowError ∧
  w_conn (update_sale w).2 = connect d ∧
  w_output (update_sale w).2 =
    (out ++ list_msgs sales
         ++ rejections (ask_choice sales (update_selected sales)) bad_choices
         ++ rejections ask_new_discount bad_discs)%list.
Proof.
  intros sales Hbc Hn Hn1 Hl Hbd Hds Hnd Hs Hb Hsid64 Hover Hfl w. subst sales w.
  apply (calm_le 2) in Hfl; [|lia].
  by rewrite (update_sale_overflow_run d bad_choices choice n l bad_discs ds nd rest s b).
Qed.

Lemma update_sale_overflow_escapes_witness :
  let w := World (connect seed_db) [] ["3"; "9223372036854775808"] [] in
  (update_sale w).1 = Raise OverflowError ∧
  w_conn (update_sale w).2 = connect seed_db ∧
  w_output (update_sale w).2 =
    [MsgListHeader;
     MsgListItem 1 (Listing 1 "2024-01-15" "Alice");
     MsgListItem 2 (Listing 2 "2024-01-16" "Bob");
     MsgListItem 3 (Listing 3 "2024-01-17" "Alice");
     MsgListItem 4 (Listing 4 "2024-01-18" "Cathy");
     MsgListFooter].
Proof.
  apply (update_sale_overflow_escapes seed_db [] [] "3" 3
           (Listing 3 "2024-01-17" "Alice") [] "9223372036854775808" (2 ^ 63) [] []
           (SaleRow "2024-01-17" "M001" "B003" 3 200 3400)
           (BookRow "Machine Learning Guide" 1200 20));
    try (repeat constructor; eexists; vm_compute; reflexivity);
    try (vm_compute; reflexivity);
    try lia.
Defined.

(** X16.  The same in [add_sale]: a create that passes every check
    (input, member, book, stock) and whose discount or total SQLite
    cannot take ends in [OverflowError], with the store answering (the
    four checks and the [INSERT] that is not to be): no message, no
    sale row, stock as before. *)
Theorem add_sale_overflow_escapes d fl bad_dates sdate mid bid bad_qtys qs q bad_discs ds disc
    rest out b :
  Forall (rejected ask_date) bad_dates → validate_date sdate = true →
  Forall (rejected ask_qty) bad_qtys → py_int qs = Some q → 0 < q →
  Forall (rejected ask_discount) bad_discs → py_int ds = Some disc → 0 ≤ disc →
  is_Some (member d !! mid) → book d !! bid = Some b → q ≤ bstock b →
  int64 disc = false ∨ int64 (bprice b * q - disc) = false →
  calm 5 fl →
  let w := World (connect d) fl
             (bad_dates ++ sdate :: mid :: bid :: bad_qtys ++ qs :: bad_discs ++ ds :: rest)
             out in
  (add_sale w).1 = Raise OverflowError ∧
  w_conn (add_sale w).2 = connect d ∧
  w_output (add_sale w).2 =
    (out ++ rejections ask_date bad_dates ++ rejections ask_qty bad_qtys
         ++ rejections ask_discount bad_discs)%list.
Proof.
  intros Hbd Hdate Hbq Hqs Hq Hbdisc Hds Hdisc Hm Hb Hle Hover Hfl w. subst w.
  apply (calm_le 4) in Hfl; [|lia].
  by rewrite (add_sale_overflow_run bad_dates sdate mid bid bad_qtys qs q bad_discs ds disc
                rest Hbd Hdate Hbq Hqs Hq Hbdisc Hds Hdisc d fl out b).
Qed.

Lemma add_sale_overflow_escapes_witness :
  let w := World (connect seed_db) []
             ["2024-01-15"; "M002"; "B002"; "3"; "-9"; "9223372036854775808"] [] in
  (add_sale w).1 = Raise OverflowError ∧
  w_conn (add_sale w).2 = connect seed_db ∧
  w_output (add_sale w).2 = [MsgDiscountNegative].
Proof.
  apply (add_sale_overflow_escapes seed_db [] [] "2024-01-15" "M002" "B002" [] "3" 3
           ["-9"] "9223372036854775808" (2 ^ 63) []
           [] (BookRow "Data Science Basics" 800 30));
    try (repeat constructor; eexists; vm_compute; reflexivity);
    try (vm_compute; reflexivity);
    try lia.
  cbn. lia.
Defined.

(** X17.  What the user sees of a delete.  With the input and the store
    as in C5: [delete_sale] makes three store calls and returns; it has
    printed the list, one message for each rejected choice, and last
    the message that reports the [sid]; the lines after the choice are
    left unread; and the row, which the file had, is no longer in the
    file. *)
Theorem delete_sale_deletes d fl (bad_choices : list string) choice n l
    (rest : list string) (out : list msg) :
  let sales := select_sales_list d in
  Forall (rejected (ask_choice sales (delete_selected sales))) bad_choices →
  py_int choice = Some n → 1 ≤ n → sales !! Z.to_nat (n - 1) = Some l →
  int64 (l_sid l) = true → calm 3 fl →
  let w := World (connect d) fl (bad_choices ++ choice :: rest)%list out in
  (delete_sale w).1 = Ret tt ∧
  w_faults (delete_sale w).2 = drop 3 fl ∧
  w_input (delete_sale w).2 = rest ∧
  w_output (delete_sale w).2 =
    (out ++ list_msgs sales
         ++ rejections (ask_choice sales (delete_selected sales)) bad_choices
         ++ [MsgSaleDeleted (l_sid l)])%list ∧
  is_Some (sale d !! l_sid l) ∧
  sale (committed (w_conn (delete_sale w).2)) !! l_sid l = None.
Proof.
  intros sales Hbc Hn Hn1 Hl Hsid64 Hfl w. subst sales w.
  rewrite (delete_sale_deleted_run d bad_choices choice n l rest) by done.
  cbn [fst snd w_conn w_faults w_input w_output committed connect].
  repeat (split; [done|]).
  split.
  { apply list_elem_of_lookup_2 in Hl.
    apply select_sales_list_elem in Hl as (s & m & Hs & _). eauto. }
  by rewrite sale_after_delete, decide_True by done.
Qed.

Lemma delete_sale_deletes_witness :
  let w := World (connect seed_db) [] ["x"; "4"; "5"] [] in
  (delete_sale w).1 = Ret tt ∧
  w_faults (delete_sale w).2 = [] ∧
  w_input (delete_sale w).2 = ["5"] ∧
  w_output (delete_sale w).2 =
    [MsgListHeader;
     MsgListItem 1 (Listing 1 "2024-01-15" "Alice");
     MsgListItem 2 (Listing 2 "2024-01-16" "Bob");
     MsgListItem 3 (Listing 3 "2024-01-17" "Alice");
     MsgListItem 4 (Listing 4 "2024-01-18" "Cathy");
     MsgListFooter;
     MsgBadChoice;
     MsgSaleDeleted 4] ∧
  is_Some (sale seed_db !! 4) ∧
  sale (committed (w_conn (delete_sale w).2)) !! 4 = None.
Proof.
  apply (delete_sale_deletes seed_db [] ["x"] "4" 4 (Listing 4 "2024-01-18" "Cathy") ["5"] []);
    try (repeat constructor; eexists; vm_compute; reflexivity);
    try (vm_compute; reflexivity);
    try lia.
Defined.

(** X18.  [add_sale] records nothing but valid sales.  Every run from a
    connection with no open transaction either leaves the connection as
    it was, or its input is a run of rejected dates, a valid date, a
    member id and a book id that are in their tables, rejected
    quantities, a quantity above zero and no larger than the stock,
    rejected discounts and a discount of at least zero; then it returns
    with the change committed: one new sale row, with these values and
    total = price times quantity minus discount, and the stock of that
    book down by the quantity; everything else as before. *)
Theorem add_sale_only_valid d fl inp out :
  let w := World (connect d) fl inp out in
  let c' := w_conn (add_sale w).2 in
  c' = connect d ∨
  ∃ (bad_dates : list string) sdate mid bid (bad_qtys : list string) qs q
    (bad_discs : list string) ds disc b,
    inp = (bad_dates ++ sdate :: mid :: bid :: bad_qtys ++ qs :: bad_discs ++ ds
             :: w_input (add_sale w).2)%list ∧
    (Forall (rejected ask_date) bad_dates ∧ validate_date sdate = true) ∧
    (Forall (rejected ask_qty) bad_qtys ∧ py_int qs = Some q ∧ 0 < q) ∧
    (Forall (rejected ask_discount) bad_discs ∧ py_int ds = Some disc ∧ 0 ≤ disc) ∧
    (is_Some (member d !! mid) ∧ book d !! bid = Some b ∧ q ≤ bstock b) ∧
    (add_sale w).1 = Ret tt ∧
    committed c' = working c' ∧
    sale d !! next_sid d = None ∧
    sale (working c') !! next_sid d =
      Some (SaleRow sdate mid bid q disc (bprice b * q - disc)) ∧
    (∀ sid, sid ≠ next_sid d → sale (working c') !! sid = sale d !! sid) ∧
    book (working c') !! bid = Some (BookRow (btitle b) (bprice b) (bstock b - q)) ∧
    (∀ b', b' ≠ bid → book (working c') !! b' = book d !! b') ∧
    member (working c') = member d.
Proof.
  intros w c'. subst w c'.
  destruct (add_sale (World (connect d) fl inp out)) as [r w'] eqn:Hrun. cbn [fst snd].
  apply add_sale_effect in Hrun as [Hc | Hadd]; [by left|]. right.
  destruct Hadd as (bad_dates & sdate & mid & bid & bad_qtys & qs & q & bad_discs & ds
                    & disc & b & Hinp & ? & ? & ? & ? & ? & ? & ? & ? & ? & Hb & ? & ? & Hc).
  exists bad_dates, sdate, mid, bid, bad_qtys, qs, q, bad_discs, ds, disc, b.
  rewrite Hc. cbn [working committed connect].
  do 6 (split; [done|]).
  split; [done|].
  split; [apply next_sid_fresh|].
  split; [by rewrite sale_after_add, decide_True by done|].
  split; [intros sid Hne; by rewrite sale_after_add, decide_False by done|].
  split; [by rewrite book_after_add, decide_True, Hb by done|].
  split; [intros b' Hne; by rewrite book_after_add, decide_False by done|].
  done.
Qed.

(** ** A whole session *)

Section Session.

Ltac harmless := intros; by split.

Lemma add_sale_raises c inp :
  wp add_sale c inp (λ r _ _, r ≠ Raise TypeError ∧ r ≠ Raise IndexError).
Proof.
  unfold add_sale.
  wp_step. apply wp_prompt_loop; [harmless|].
  intros bad l k inp1 -> _ [_ ->]%ask_date_leave. wp_step.
  wp_step. apply wp_input. destruct inp1 as [|mid inp2]; [harmless|].
  wp_step. apply wp_input. destruct inp2 as [|bid inp3]; [harmless|].
  match goal with |- wp (mbind ?k _) _ _ _ => set (rest := k) end.
  assert (Hrest : ∀ (v : bool) c1,
    wp (rest v) c1 inp3 (λ r _ _, r ≠ Raise TypeError ∧ r ≠ Raise IndexError)).
  { intros v c1. subst rest. cbn beta.
    wp_step. apply wp_prompt_loop; [harmless|].
    intros ? ? ? inp4 -> _ (q & _ & _ & ->)%ask_qty_leave. wp_steps.
    apply wp_prompt_loop; [harmless|].
    intros ? ? ? inp5 -> _ (disc & _ & _ & ->)%ask_discount_leave. wp_steps.
    unfold check_book_stock, get_book_price.
    destruct v; cbn [negb]; [|wp_steps; harmless].
    wp_steps; try harmless.
    destruct (bstock <$> book (working c1) !! bid) as [st|]; [destruct (q <=? st)|];
      wp_steps; cbn [fst snd negb]; wp_steps; harmless. }
  unfold check_member_exists, check_book_exists.
  wp_steps; try harmless.
  destruct (bool_decide _); wp_steps; try harmless; apply Hrest.
Qed.

Lemma print_sale_report_raises c inp :
  wp print_sale_report c inp (λ r _ _, r ≠ Raise TypeError ∧ r ≠ Raise IndexError).
Proof. unfold print_sale_report. wp_steps; harmless. Qed.

Lemma delete_sale_raises c inp :
  wp delete_sale c inp (λ r _ _, r ≠ Raise TypeError ∧ r ≠ Raise IndexError).
Proof.
  unfold delete_sale, get_sales_list, display_sales_list.
  wp_steps; try harmless.
  destruct (select_sales_list (working c)) as [|l0 sales0] eqn:Esales; [wp_steps; harmless|].
  wp_steps. apply wp_prompt_loop; [harmless|].
  intros bad choice k inp1 -> _ [-> | (n & l & _ & Hl & _ & ->)]%ask_choice_leave;
    [wp_steps; harmless|].
  unfold delete_selected. rewrite Hl. wp_steps; harmless.
Qed.

Lemma run_op_raises o c fl inp out :
  reachable c →
  (run_op o (World c fl inp out)).1 ≠ Raise TypeError ∧
  (run_op o (World c fl inp out)).1 ≠ Raise IndexError.
Proof.
  intros Hreach.
  destruct (run_op o (World c fl inp out)) as [r w'] eqn:Hrun. cbn [fst].
  destruct o; cbn [run_op] in Hrun.
  - by apply add_sale_raises in Hrun.
  - by apply print_sale_report_raises in Hrun.
  - destruct (reachable_inv c Hreach) as (d & -> & _ & _ & Hre).
    apply update_sale_effect in Hrun as (_ & ? & Hty). auto.
  - by apply delete_sale_raises in Hrun.
Qed.

Lemma reachable_committed c : reachable c → reachable (connect (committed c)).
Proof. intros H. by destruct (reachable_inv c H) as (d & -> & _). Qed.

Lemma main_loop_session fuel w :
  reachable (w_conn w) →
  match (main_loop fuel w).1 with
  | Ret _ => reachable (w_conn (main_loop fuel w).2)
  | Raise e =>
      reachable (connect (committed (w_conn (main_loop fuel w).2))) ∧
      e ≠ TypeError ∧ e ≠ IndexError
  end.
Proof.
  revert w. induction fuel as [|fuel IH]; intros [c fl inp out]; cbn [w_conn]; [done|].
  intros Hc. cbn [main_loop]. unfold show_menu, mbind, M_bind, print, input.
  cbn [w_conn w_faults w_input w_output].
  destruct inp as [|choice inp];
    [cbn; split; [by apply reachable_committed | by split]|].
  unfold set_input. cbn [w_conn w_faults w_input w_output].
  assert (Hop : ∀ o w0, w_conn w0 = c →
            match (let (r, w') := run_op o w0 in
                   match r with
                   | Ret _ => main_loop fuel w'
                   | Raise e => (Raise e, w')
                   end).1 with
            | Ret _ =>
                reachable (w_conn (let (r, w') := run_op o w0 in
                                   match r with
                                   | Ret _ => main_loop fuel w'
                                   | Raise e => (Raise e, w')
                                   end).2)
            | Raise e =>
                reachable (connect (committed (w_conn
                   (let (r, w') := run_op o w0 in
                    match r with
                    | Ret _ => main_loop fuel w'
                    | Raise e => (Raise e, w')
                    end).2))) ∧
                e ≠ TypeError ∧ e ≠ IndexError
            end).
  { intros o [c0 fl0 inp0 out0] Hc0. cbn [w_conn] in Hc0. subst c0.
    pose proof (run_op_raises o c fl0 inp0 out0 Hc) as [Hty Hidx].
    destruct (run_op o (World c fl0 inp0 out0)) as [[[]|e] w1] eqn:Hrun.
    - apply IH. by eapply reachable_ret.
    - cbn [fst snd] in *. split; [by eapply reachable_raise|]. split; congruence. }
  repeat case_decide; try done.
  - apply (Hop OpAdd); reflexivity.
  - apply (Hop OpReport); reflexivity.
  - apply (Hop OpUpdate); reflexivity.
  - apply (Hop OpDelete); reflexivity.
  - by apply IH.
Qed.

End Session.

(** X19.  A whole session keeps the file within the reachable states.
    From a reachable connection, whatever the input and the store do,
    the connection [main] ends with is reachable again (so stock at
    least zero, valid sale rows, sound references and totals hold after
    every session); and [main] either leaves its loop by the empty line
    or choice 5, or ends with [sqlite3.Error], [OverflowError] or the
    end of the input: never with the [TypeError] or [IndexError] of a
    failed lookup. *)
Theorem main_session c fl inp out :
  reachable c →
  let r := main (World c fl inp out) in
  reachable (w_conn r.2) ∧
  (r.1 = Ret true ∨ r.1 = Raise SqliteError ∨ r.1 = Raise OverflowError ∨
   r.1 = Raise EOFError).
Proof.
  intros Hreach r. subst r. unfold main, with_conn. cbn [w_input].
  pose proof (main_loop_session (S (length inp)) (World c fl inp out) Hreach) as Hloop.
  pose proof (main_loop_fuel (S (length inp)) (World c fl inp out) ltac:(cbn; lia)) as Hfuel.
  destruct (main_loop (S (length inp)) (World c fl inp out)) as [[a|e] [c1 fl1 inp1 out1]];
    cbn [fst snd w_conn] in Hloop, Hfuel.
  - unfold commit, store_call, mbind, M_bind. cbn [w_conn w_faults w_input w_output].
    destruct (head fl1) as [[|]|]; cbn.
    + split; [done | auto].
    + split; [by apply reachable_exit|]. left. destruct a; [done | congruence].
    + split; [by apply reachable_exit|]. left. destruct a; [done | congruence].
  - destruct Hloop as (Hc1 & Hty & Hidx). cbn. split; [done|].
    destruct e; auto; congruence.
Qed.

Lemma main_session_witness :
  let r := main (World (connect seed_db) [false; false; false; true]
                   ["1"; "2024-01-15"; "M001"; "B001"; "2"; "0"; "4"; "1"; "2"; "7"] []) in
  reachable (w_conn r.2) ∧
  (r.1 = Ret true ∨ r.1 = Raise SqliteError ∨ r.1 = Raise OverflowError ∨
   r.1 = Raise EOFError).
Proof. apply main_session. apply reachable_seed. Defined.

(** ** [initialize_db] *)

Section InitializeDb.

Lemma executescript_calm script : ∀ f f' (j : nat) fl,
  calm (j + length script) fl →
  after_stmts script (length script) f = Some f' →
  executescript script f (drop j fl) = (false, f', drop (j + length script) fl).
Proof.
  induction script as [|s script IH]; intros f f' j fl Hcalm Hafter.
  - cbn in *. rewrite Nat.add_0_r. congruence.
  - cbn [executescript length after_stmts] in *.
    destruct (run_stmt s f) as [f1|] eqn:Hs; [|done]. cbn in Hafter.
    pose proof (calm_head_drop _ j fl Hcalm ltac:(lia)) as Hhead.
    rewrite tail_drop.
    replace (j + S (length script))%nat with (S j + length script)%nat in * by lia.
    destruct (head (drop j fl)) as [[|]|]; [done| |]; by apply IH.
Qed.

Lemma executescript_fault script : ∀ (k : nat) f fk (j : nat) fl,
  (k < length script)%nat →
  calm (j + k) fl → fl !! (j + k)%nat = Some true →
  after_stmts script k f = Some fk →
  executescript script f (drop j fl) = (true, fk, drop (S (j + k)) fl).
Proof.
  induction script as [|s script IH]; intros k f fk j fl Hk Hcalm Hfault Hafter;
    [cbn in Hk; lia|].
  cbn [executescript]. destruct k as [|k].
  - rewrite Nat.add_0_r in *. rewrite head_drop, Hfault, tail_drop.
    cbn in Hafter. congruence.
  - cbn [after_stmts] in Hafter.
    destruct (run_stmt s f) as [f1|] eqn:Hs; [|done]. cbn in Hafter.
    pose proof (calm_head_drop _ j fl Hcalm ltac:(lia)) as Hhead.
    rewrite tail_drop.
    replace (j + S k)%nat with (S j + k)%nat in * by lia.
    cbn [length] in Hk.
    destruct (head (drop j fl)) as [[|]|]; [done| |]; apply IH; try done; lia.
Qed.

Lemma initialize_db_existing f fl :
  is_Some (f_sale f) → (initialize_db f fl).1.1 = f.
Proof.
  intros [t Ht]. unfold initialize_db. rewrite Ht.
  by destruct (head fl) as [[|]|].
Qed.

Lemma initialize_db_calm f f' fl :
  f_sale f = None → calm 14 fl →
  after_stmts seed_script 13 f = Some f' →
  initialize_db f fl = (f', drop 14 fl, false).
Proof.
  intros Hf Hcalm Hafter. unfold initialize_db. rewrite Hf.
  pose proof (calm_lookup 14 fl 0 Hcalm ltac:(lia)) as Hhead.
  rewrite <- head_lookup in Hhead.
  assert (Hscript : executescript seed_script f (tail fl) = (false, f', drop 14 fl)).
  { rewrite <- (drop_0 fl) at 1. rewrite tail_drop.
    by apply (executescript_calm seed_script f f' 1 fl). }
  rewrite Hscript. by destruct (head fl) as [[|]|].
Qed.

Lemma initialize_db_fault f fk (k : nat) fl :
  f_sale f = None → (k < 13)%nat →
  calm (1 + k) fl → fl !! (1 + k)%nat = Some true →
  after_stmts seed_script k f = Some fk →
  initialize_db f fl = (fk, drop (2 + k) fl, true).
Proof.
  intros Hf Hk Hcalm Hfault Hafter. unfold initialize_db. rewrite Hf.
  pose proof (calm_lookup (1 + k) fl 0 Hcalm ltac:(lia)) as Hhead.
  rewrite <- head_lookup in Hhead.
  assert (Hscript : executescript seed_script f (tail fl) = (true, fk, drop (2 + k) fl)).
  { rewrite <- (drop_0 fl) at 1. rewrite tail_drop.
    by apply (executescript_fault seed_script k f fk 1 fl). }
  rewrite Hscript. by destruct (head fl) as [[|]|].
Qed.

Lemma run_stmt_sale_kept s f f' :
  run_stmt s f = Some f' → is_Some (f_sale f) → is_Some (f_sale f').
Proof.
  intros Hs [t Ht]. destruct s; cbn in Hs.
  - injection Hs as <-. cbn. eauto.
  - injection Hs as <-. cbn. eauto.
  - injection Hs as <-. cbn. eauto.
  - destruct (f_member f) as [m|]; [|done]. cbn in Hs.
    destruct (m !! k); [done|]. injection Hs as <-. cbn. eauto.
  - destruct (f_book f) as [m|]; [|done]. cbn in Hs.
    destruct (m !! k); [done|]. injection Hs as <-. cbn. eauto.
  - rewrite Ht in Hs. cbn in Hs. injection Hs as <-. cbn. eauto.
Qed.

Lemma after_stmts_sale_kept script : ∀ (n : nat) f f',
  after_stmts script n f = Some f' → is_Some (f_sale f) → is_Some (f_sale f').
Proof.
  induction script as [|s script IH]; intros [|n] f f' Hafter Hf; cbn in Hafter;
    try congruence.
  destruct (run_stmt s f) as [f1|] eqn:Hs; [|done]. cbn in Hafter.
  eapply IH; [done|]. by eapply run_stmt_sale_kept.
Qed.

Lemma after_stmts_cons s script (n : nat) f :
  after_stmts (s :: script) (S n) f = run_stmt s f ≫= after_stmts script n.
Proof. reflexivity. Qed.

Lemma after_stmts_sale_created (k : nat) f fk :
  (3 ≤ k)%nat → after_stmts seed_script k f = Some fk → is_Some (f_sale fk).
Proof.
  intros Hk Hafter. destruct k as [|[|[|k]]]; try lia.
  unfold seed_script in Hafter.
  do 3 (rewrite after_stmts_cons in Hafter; cbn [run_stmt mbind option_bind] in Hafter).
  eapply after_stmts_sale_kept; [done|]. cbn. eauto.
Qed.

End InitializeDb.

(** X20.  The first run and the later ones.  On a new file, when the
    store answers the fourteen calls of [initialize_db] (the look-up in
    [sqlite_master] and the thirteen statements of the script), the
    file afterwards holds the three tables with the three members, the
    three books and the four sales numbered 1 to 4, and no message is
    printed; and on a file that has the tables of any database,
    [initialize_db] changes nothing, whatever the store does. *)
Theorem initialize_db_first_run fl :
  calm 14 fl →
  initialize_db empty_file fl = (file_of_db seed_db, drop 14 fl, false) ∧
  ∀ d fl2, (initialize_db (file_of_db d) fl2).1.1 = file_of_db d.
Proof.
  intros Hcalm. split.
  - apply initialize_db_calm; [done | done | vm_compute; reflexivity].
  - intros d fl2. apply initialize_db_existing. cbn. eauto.
Qed.

Lemma initialize_db_first_run_witness :
  initialize_db empty_file [false; false] =
    (file_of_db seed_db, drop 14 [false; false], false) ∧
  ∀ d fl2, (initialize_db (file_of_db d) fl2).1.1 = file_of_db d.
Proof.
  apply (initialize_db_first_run [false; false]).
  unfold calm. cbn. repeat constructor.
Defined.

(** X21.  The script is not one transaction.  When the store fails at
    statement [k] of the script (counted from 0) on a new file, the
    handler prints its message and the file keeps what the first [k]
    statements did.  If the [sale] table was among them ([3 ≤ k]), the
    file differs from the seeded one and every later run of
    [initialize_db] leaves it as it is: the missing rows are never
    inserted.  If it was not ([k < 3]), the next run with the store
    working seeds the file completely. *)
Theorem initialize_db_partial (k : nat) fl :
  (k < 13)%nat → calm (1 + k) fl → fl !! (1 + k)%nat = Some true →
  ∃ fk, after_stmts seed_script k empty_file = Some fk ∧
    initialize_db empty_file fl = (fk, drop (2 + k) fl, true) ∧
    fk ≠ file_of_db seed_db ∧
    ((3 ≤ k)%nat → ∀ fl2, (initialize_db fk fl2).1.1 = fk) ∧
    ((k < 3)%nat → ∀ fl2, calm 14 fl2 →
       initialize_db fk fl2 = (file_of_db seed_db, drop 14 fl2, false)).
Proof.
  intros Hk Hcalm Hfault.
  assert (Hex : ∃ fk, after_stmts seed_script k empty_file = Some fk ∧
                      f_seq fk ≠ 4 ∧
                      ((k < 3)%nat → f_sale fk = None ∧
                         after_stmts seed_script 13 fk = Some (file_of_db seed_db))).
  { do 13 (destruct k as [|k];
           [eexists; split; [vm_compute; reflexivity|];
            split; [vm_compute; discriminate|];
            intros Hlt; first [lia | split; vm_compute; reflexivity]|]).
    lia. }
  destruct Hex as (fk & Hafter & Hseq & Hretry). exists fk.
  split; [done|]. split; [by apply initialize_db_fault|].
  split; [intros ->; by apply Hseq|]. split.
  - intros H3 fl2. apply initialize_db_existing.
    by eapply after_stmts_sale_created.
  - intros H3 fl2 Hcalm2. destruct (Hretry H3) as [Hnone Hfull].
    by apply initialize_db_calm.
Qed.

Lemma initialize_db_partial_witness :
  ∃ fk, after_stmts seed_script 5 empty_file = Some fk ∧
    initialize_db empty_file [false; false; false; false; false; false; true] =
      (fk, drop (2 + 5) [false; false; false; false; false; false; true], true) ∧
    fk ≠ file_of_db seed_db ∧
    ((3 ≤ 5)%nat → ∀ fl2, (initialize_db fk fl2).1.1 = fk) ∧
    ((5 < 3)%nat → ∀ fl2, calm 14 fl2 →
       initialize_db fk fl2 = (file_of_db seed_db, drop 14 fl2, false)).
Proof.
  apply (initialize_db_partial 5 [false; false; false; false; false; false; true]).
  - lia.
  - unfold calm. cbn. repeat constructor.
  - reflexivity.
Defined.
